(** * pip-compile-multi: the upgrade features

    A shallow embedding of [pipcompilemulti/features/upgrade.py]:
    the [UpgradeAll] and [UpgradeSelected] features, the per-environment
    cache of pinned package names of [UpgradeSelected], and the parser of
    compiled [.txt] files that fills it.

    Conventions of the embedding:
    - a Python [str] is a [string]; [str.lower] is the lowering of the
      ASCII letters (package names and pin lines are ASCII text);
    - a Python [set] of names is a [gset string], the dictionary
      [_env_packages_cache] is a [gmap string (gset string)];
    - a call either returns a value or raises: [result];
    - the methods of [UpgradeSelected] read and fill the cache of the
      object: they are state transformers on the record of the object. *)

From Stdlib Require Import String Ascii List.
From stdpp Require Import base decidable option list gmap sets strings.

Local Open Scope string_scope.

(** ** Python strings *)

Module PyStr.

(** [c.lower()] for one character: 'A'..'Z' (65..90) move to 'a'..'z'. *)
Definition lower_ascii (c : ascii) : ascii :=
  let n := nat_of_ascii c in
  if (65 <=? n)%nat && (n <=? 90)%nat then ascii_of_nat (n + 32) else c.

(** [s.lower()] *)
Fixpoint lower (s : string) : string :=
  match s with
  | EmptyString => EmptyString
  | String c s' => String (lower_ascii c) (lower s')
  end.

(** [t.startswith(sep)] *)
Fixpoint startswith (sep t : string) : bool :=
  match sep, t with
  | EmptyString, _ => true
  | String _ _, EmptyString => false
  | String a sep', String b t' => if ascii_dec a b then startswith sep' t' else false
  end.

(** [sep in s]: [sep] occurs in [s] at some position. *)
Fixpoint contains (sep s : string) : bool :=
  startswith sep s ||
  match s with
  | EmptyString => false
  | String _ s' => contains sep s'
  end.

(** [s.split(sep, 1)[0]]: the text before the leftmost occurrence of
    [sep], and all of [s] when [sep] does not occur. *)
Fixpoint split1_head (sep s : string) : string :=
  if startswith sep s then EmptyString
  else match s with
       | EmptyString => EmptyString
       | String c s' => String c (split1_head sep s')
       end.

Definition newline : ascii := ascii_of_nat 10.

(** [for line in fp]: the text of the file cut after each newline; every
    line keeps its newline, the last line may lack one, and an empty file
    yields no line. *)
Fixpoint iter_lines (content : string) : list string :=
  match content with
  | EmptyString => []
  | String c rest =>
      if ascii_dec c newline then String c EmptyString :: iter_lines rest
      else match iter_lines rest with
           | [] => [String c EmptyString]
           | line :: lines => String c line :: lines
           end
  end.

End PyStr.

(** ** Exceptions *)

(** The exception classes the code can meet: [IOError] (a missing or
    unreadable file), [KeyError] (a dictionary subscript on an absent
    key), and [OtherError] for every class that [except IOError] does not
    catch (a decoding error while reading, for instance). *)
Inductive exn : Type :=
  | IOError
  | KeyError
  | OtherError.

Inductive result (A : Type) : Type :=
  | Ok (a : A)
  | Raise (e : exn).
Arguments Ok {A} a.
Arguments Raise {A} e.

Definition result_map {A B : Type} (f : A -> B) (r : result A) : result B :=
  match r with
  | Ok a => Ok (f a)
  | Raise e => Raise e
  end.

(** The files as [open(outfile)] followed by the iteration over the file
    sees them: the whole text, or the exception raised on the way. *)
Definition filesystem : Type := string -> result string.

(** ** UpgradeSelected *)

Module UpgradeSelected.

(** The object: [value] is the resolved option of [BaseFeature] ([None]
    when the option was not supplied), [_env_packages_cache] the
    dictionary from environment names to sets of pinned names. *)
Record t : Type := mk {
  value : option (list string);
  _env_packages_cache : gmap string (gset string);
}.

(** Methods that use the cache: state transformers that may raise. *)
Definition M (A : Type) : Type := t -> result A * t.

Definition ret {A : Type} (a : A) : M A := fun self => (Ok a, self).

Definition bind {A B : Type} (m : M A) (k : A -> M B) : M B :=
  fun self =>
    match m self with
    | (Ok a, self') => k a self'
    | (Raise e, self') => (Raise e, self')
    end.

Definition lift {A : Type} (r : result A) : M A := fun self => (r, self).

Notation "x <-- m ;; k" := (bind m (fun x => k))
  (at level 20, m at level 99, k at level 200, only parsing).
Notation "m ;;; k" := (bind m (fun _ => k))
  (at level 100, k at level 200, only parsing, right associativity).

(** [self._env_packages_cache[env_name] = pkgs] *)
Definition setitem (env_name : string) (pkgs : gset string) : M unit :=
  fun self =>
    (Ok tt, {| value := value self;
               _env_packages_cache := <[env_name := pkgs]> (_env_packages_cache self) |}).

(** [self._env_packages_cache[env_name]] *)
Definition getitem (env_name : string) : M (gset string) :=
  fun self =>
    match _env_packages_cache self !! env_name with
    | Some pkgs => (Ok pkgs, self)
    | None => (Raise KeyError, self)
    end.

(** [env_name not in self._env_packages_cache] *)
Definition not_cached (env_name : string) : M bool :=
  fun self =>
    (Ok (bool_decide (_env_packages_cache self !! env_name = None)), self).

Definition reset (self : t) : t :=
  {| value := value self; _env_packages_cache := ∅ |}.

Definition __init__ (v : option (list string)) : t :=
  reset {| value := v; _env_packages_cache := ∅ |}.

(** [self.value or []] *)
Definition package_names (self : t) : list string :=
  match value self with
  | Some (p :: ps) => p :: ps
  | Some [] | None => []
  end.

(** [bool(self.package_names)] *)
Definition active (self : t) : bool :=
  match package_names self with
  | [] => false
  | _ :: _ => true
  end.

(** The name a pin line binds: [line.split('==', 1)[0].lower()]. *)
Definition pin_name (line : string) : string :=
  PyStr.lower (PyStr.split1_head "==" line).

(** [set(line.split('==', 1)[0].lower() for line in fp if '==' in line)] *)
Definition parse_pins (lines : list string) : gset string :=
  list_to_set (pin_name <$> filter (λ line, PyStr.contains "==" line) lines).

Section Methods.

(** [self._controller.compose_output_file_path] *)
Variable compose_output_file_path : string -> string.

Variable fs : filesystem.

Definition _read_packages (outfile : string) : result (gset string) :=
  match fs outfile with
  | Ok content => Ok (parse_pins (PyStr.iter_lines content))
  | Raise IOError => Ok ∅
  | Raise e => Raise e
  end.

Definition _compose_output_file_path (env_name : string) : string :=
  compose_output_file_path env_name.

Definition _env_packages (env_name : string) : M (gset string) :=
  absent <-- not_cached env_name ;;
  (if absent
   then pkgs <-- lift (_read_packages (_compose_output_file_path env_name)) ;;
        setitem env_name pkgs
   else ret tt) ;;;
  getitem env_name.

Definition has_package (env_name package_name : string) : M bool :=
  pkgs <-- _env_packages env_name ;;
  ret (bool_decide (PyStr.lower package_name ∈ pkgs)).

(** The comprehension of [pin_options] over the rest of the names. *)
Fixpoint pin_options_from (env_name : string) (names : list string)
  : M (list string) :=
  match names with
  | [] => ret []
  | package :: rest =>
      keep <-- has_package env_name package ;;
      options <-- pin_options_from env_name rest ;;
      ret (if keep : bool
           then String.append "--upgrade-package=" package :: options
           else options)
  end.

Definition pin_options (env_name : string) : M (list string) :=
  fun self => pin_options_from env_name (package_names self) self.

(** [any(self.has_package(env_name, p) for p in names)]: the generator
    is consumed up to the first true element. *)
Fixpoint any_has_package (env_name : string) (names : list string) : M bool :=
  match names with
  | [] => ret false
  | package_name :: rest =>
      found <-- has_package env_name package_name ;;
      if found : bool then ret true else any_has_package env_name rest
  end.

Definition affected (env_name : string) : M bool :=
  fun self =>
    if negb (active self) then (Ok true, self)
    else any_has_package env_name (package_names self) self.

End Methods.

End UpgradeSelected.

(** ** UpgradeAll *)

Module UpgradeAll.

(** [value] is the resolved flag of [--upgrade/--no-upgrade]. *)
Record t : Type := mk { value : bool }.

(** [self.value and not self._controller.upgrade_selected.active]; the
    second argument is the [UpgradeSelected] object of the controller. *)
Definition enabled (self : t) (upgrade_selected : UpgradeSelected.t) : bool :=
  value self && negb (UpgradeSelected.active upgrade_selected).

Definition pin_options (self : t) (upgrade_selected : UpgradeSelected.t)
  : list string :=
  if enabled self upgrade_selected then ["--upgrade"] else [].

End UpgradeAll.

(** ** Reading the results of the methods *)

Section Views.

Import UpgradeSelected.

(** The object with the cache entry of [env_name] set to [pkgs]. *)
Definition with_entry (env_name : string) (pkgs : gset string) (self : t) : t :=
  {| value := value self;
     _env_packages_cache := <[env_name := pkgs]> (_env_packages_cache self) |}.

(** [package_name] is pinned, up to case, in the pin set [pkgs]. *)
Definition pinned_in (pkgs : gset string) (package_name : string) : bool :=
  bool_decide (PyStr.lower package_name ∈ pkgs).

(** One upgrade argument for each requested name pinned in [pkgs], in
    the order of the request. *)
Definition upgrade_arguments (pkgs : gset string) (names : list string)
  : list string :=
  String.append "--upgrade-package=" <$> filter (λ p, PyStr.lower p ∈ pkgs) names.

(** The cache entry of [env_name], when there is one, is what reading
    the output file of [env_name] in [fs] gives: true after [reset], and
    kept by every method for as long as the file is not written. *)
Definition snapshot_of (compose : string -> string) (fs : filesystem)
    (env_name : string) (self : t) : Prop :=
  forall pkgs, _env_packages_cache self !! env_name = Some pkgs ->
               _read_packages fs (compose env_name) = Ok pkgs.

End Views.

(** ** A small project to run the methods on *)

Module Demo.

Definition nl : string := String PyStr.newline EmptyString.

(** [requirements/<env>.txt] *)
Definition compose (env_name : string) : string :=
  String.append "requirements/" (String.append env_name ".txt").

Definition base_txt : string :=
  String.concat nl
    ["# This file is autogenerated"; "Foo==1.0"; ""; "six==1.16.0  # via foo"; ""].

Definition test_txt : string :=
  String.concat nl ["-r base.txt"; "bar==2.0"; ""].

(** [base] and [test] are compiled, [docs] has no output file yet, and
    [broken] holds bytes that can not be decoded. *)
Definition fs : filesystem := fun path =>
  if String.eqb path "requirements/base.txt" then Ok base_txt
  else if String.eqb path "requirements/test.txt" then Ok test_txt
  else if String.eqb path "requirements/broken.txt" then Raise OtherError
  else Raise IOError.

(** The same project after [base] was compiled again. *)
Definition fs' : filesystem := fun path =>
  if String.eqb path "requirements/base.txt"
  then Ok (String.concat nl ["six==1.17.0"; ""])
  else fs path.

(** [-P FOO -P bar] *)
Definition selected : UpgradeSelected.t :=
  UpgradeSelected.__init__ (Some ["FOO"; "bar"]).

(** No [-P] option. *)
Definition unset : UpgradeSelected.t := UpgradeSelected.__init__ None.

(** The pins of [base.txt] as first compiled. *)
Definition base_pins : gset string :=
  UpgradeSelected.parse_pins (PyStr.iter_lines base_txt).

(** [selected] after [has_package('base', 'foo')] on the first files. *)
Definition queried : UpgradeSelected.t :=
  snd (UpgradeSelected.has_package compose fs "base" "foo" selected).

Definition pin_lines : list string :=
  [String.append "Foo==1.0" nl; String.append "six==1.16.0  # via foo" nl].

Definition other_lines : list string :=
  [String.append "# This file is autogenerated" nl; nl].

End Demo.

(** ** Runs of queries *)

(** The calls a controller makes on an [UpgradeSelected] object during a
    run, as data: [has_package(env_name, package_name)],
    [affected(env_name)] and [pin_options(env_name)]. *)
Inductive query : Type :=
  | HasPackage (env_name package_name : string)
  | Affected (env_name : string)
  | PinOptions (env_name : string).

Inductive answer : Type :=
  | Truth (b : bool)
  | Options (opts : list string).

Section Queries.

Import UpgradeSelected.

Definition env_of (q : query) : string :=
  match q with
  | HasPackage env_name _ | Affected env_name | PinOptions env_name => env_name
  end.

(** Whether the call asks for the pin set at all: [has_package] always
    does, the two others only for a list of names that is not empty. *)
Definition consults (q : query) (self : t) : bool :=
  match q with
  | HasPackage _ _ => true
  | Affected _ | PinOptions _ => active self
  end.

(** The answer to [q] read off the pin set [pkgs] for the request
    [names]. *)
Definition answer_in (pkgs : gset string) (names : list string) (q : query)
  : answer :=
  match q with
  | HasPackage _ package_name => Truth (pinned_in pkgs package_name)
  | Affected _ =>
      Truth (match names with
             | [] => true
             | _ :: _ => existsb (pinned_in pkgs) names
             end)
  | PinOptions _ => Options (upgrade_arguments pkgs names)
  end.

Variable compose : string -> string.

Variable fs : filesystem.

(** The call itself. *)
Definition ask (q : query) : M answer :=
  fun self =>
    match q with
    | HasPackage env_name package_name =>
        let (r, self') := has_package compose fs env_name package_name self in
        (result_map Truth r, self')
    | Affected env_name =>
        let (r, self') := affected compose fs env_name self in
        (result_map Truth r, self')
    | PinOptions env_name =>
        let (r, self') := pin_options compose fs env_name self in
        (result_map Options r, self')
    end.

(** The object after a sequence of calls, raising ones included. *)
Fixpoint run (qs : list query) (self : t) : t :=
  match qs with
  | [] => self
  | q :: rest => run rest (snd (ask q self))
  end.

(** The answer to [q] computed from the file alone, without any cache. *)
Definition answer_from_file (names : list string) (q : query) (consulted : bool)
  : result answer :=
  if consulted
  then result_map (λ pkgs, answer_in pkgs names q)
         (_read_packages fs (compose (env_of q)))
  else Ok (answer_in ∅ names q).

(** The object after the pin set of [env_name] was asked for: a new
    entry when there was none and the read returned, no change
    otherwise. *)
Definition populate (env_name : string) (self : t) : t :=
  match _env_packages_cache self !! env_name,
        _read_packages fs (compose env_name) with
  | None, Ok pkgs => with_entry env_name pkgs self
  | _, _ => self
  end.

End Queries.

(** A line feed, as a string. *)
Definition LF : string := String PyStr.newline EmptyString.

(** The small project after [docs] was compiled for the first time. *)
Definition fs_with_docs : filesystem := fun path =>
  if String.eqb path "requirements/docs.txt"
  then Ok (String.append "foo==2.0" LF)
  else Demo.fs path.

(** ** Examples *)

Example lower_ex : PyStr.lower "Foo-Bar_2" = "foo-bar_2".
Proof. reflexivity. Qed.

Example split_ex : PyStr.split1_head "==" "a===b==c" = "a".
Proof. reflexivity. Qed.

Example lines_ex :
  PyStr.iter_lines (String "a" (String PyStr.newline (String PyStr.newline "bc")))
  = [String "a" (String PyStr.newline ""); String PyStr.newline ""; "bc"].
Proof. reflexivity. Qed.

(** ** Facts about the string functions *)

Section StringFacts.

Lemma append_nil (t : string) : String.append EmptyString t = t.
Proof. reflexivity. Qed.

Lemma append_cons (c : ascii) (s t : string) :
  String.append (String c s) t = String c (String.append s t).
Proof. reflexivity. Qed.

Lemma lower_ascii_idemp (c : ascii) :
  PyStr.lower_ascii (PyStr.lower_ascii c) = PyStr.lower_ascii c.
Proof. destruct c as [[] [] [] [] [] [] [] []]; reflexivity. Qed.

Lemma lower_idemp (s : string) : PyStr.lower (PyStr.lower s) = PyStr.lower s.
Proof.
  induction s as [|c s IH]; simpl; [reflexivity|].
  rewrite lower_ascii_idemp, IH. reflexivity.
Qed.

Lemma lower_length (s : string) :
  String.length (PyStr.lower s) = String.length s.
Proof. induction s as [|c s IH]; simpl; congruence. Qed.

(** [startswith] is the prefix test. *)
Lemma startswith_iff (sep t : string) :
  PyStr.startswith sep t = true <-> exists rest, t = String.append sep rest.
Proof.
  revert t. induction sep as [|a sep IH]; intros t; simpl.
  - split; [intros _; exists t; reflexivity | reflexivity].
  - destruct t as [|b t].
    + split; [discriminate | intros [rest H]; discriminate].
    + destruct (ascii_dec a b) as [->|Hne].
      * rewrite IH. split; intros [rest H]; exists rest;
          rewrite append_cons in *; congruence.
      * split; [discriminate|].
        intros [rest H]. rewrite append_cons in H. congruence.
Qed.

(** [sep in s] holds exactly when [s] is [pre + sep + post]. *)
Lemma contains_iff (sep s : string) :
  PyStr.contains sep s = true <->
  exists pre post, s = String.append pre (String.append sep post).
Proof.
  induction s as [|c s IH].
  - simpl. rewrite orb_false_r, startswith_iff. split.
    + intros [rest H]. exists EmptyString, rest. exact H.
    + intros [pre [post H]]. destruct pre as [|d pre]; [|discriminate].
      exists post. exact H.
  - simpl. rewrite orb_true_iff, startswith_iff, IH. split.
    + intros [[rest H]|[pre [post H]]].
      * exists EmptyString, rest. exact H.
      * exists (String c pre), post. rewrite append_cons. congruence.
    + intros [pre [post H]]. destruct pre as [|d pre].
      * left. exists post. exact H.
      * right. exists pre, post. rewrite append_cons in H. congruence.
Qed.

(** Without an occurrence of [sep] the split returns the whole string. *)
Lemma split1_head_absent (sep s : string) :
  PyStr.contains sep s = false -> PyStr.split1_head sep s = s.
Proof.
  induction s as [|c s IH]; simpl; intros H; apply orb_false_iff in H as [H1 H2].
  - rewrite H1. reflexivity.
  - rewrite H1, (IH H2). reflexivity.
Qed.

(** With an occurrence, the split is at [sep]: the line is the head,
    then [sep], then the rest. *)
Lemma split1_head_present (sep s : string) :
  PyStr.contains sep s = true ->
  exists rest,
    s = String.append (PyStr.split1_head sep s) (String.append sep rest).
Proof.
  induction s as [|c s IH]; simpl; intros H.
  - rewrite orb_false_r in H. rewrite H.
    apply startswith_iff in H. exact H.
  - destruct (PyStr.startswith sep (String c s)) eqn:Hs.
    + apply startswith_iff in Hs. exact Hs.
    + simpl in H. destruct (IH H) as [rest Hrest].
      exists rest. rewrite append_cons. congruence.
Qed.

(** The split is at the leftmost occurrence: no occurrence of [sep]
    starts before the end of the head. *)
Lemma split1_head_leftmost (sep s pre post : string) :
  s = String.append pre (String.append sep post) ->
  String.length (PyStr.split1_head sep s) <= String.length pre.
Proof.
  revert pre. induction s as [|c s IH]; intros pre H; simpl.
  - destruct (PyStr.startswith sep EmptyString); simpl; lia.
  - destruct (PyStr.startswith sep (String c s)) eqn:Hs; simpl; [lia|].
    destruct pre as [|d pre].
    + assert (PyStr.startswith sep (String c s) = true) as Ht
        by (apply startswith_iff; exists post; exact H).
      congruence.
    + rewrite append_cons in H. injection H as _ H.
      specialize (IH pre H). simpl. lia.
Qed.

Lemma concat_cons (l : string) (ls : list string) :
  String.concat EmptyString (l :: ls)
  = String.append l (String.concat EmptyString ls).
Proof.
  destruct ls as [|l' ls]; simpl; [|reflexivity].
  induction l as [|c l IH]; [reflexivity|].
  rewrite append_cons. congruence.
Qed.

(** The lines of a file, put back together, are the file. *)
Lemma iter_lines_concat (content : string) :
  String.concat EmptyString (PyStr.iter_lines content) = content.
Proof.
  induction content as [|c rest IH]; [reflexivity|].
  cbn [PyStr.iter_lines].
  destruct (ascii_dec c PyStr.newline) as [->|Hc].
  - rewrite concat_cons, IH. reflexivity.
  - destruct (PyStr.iter_lines rest) as [|l ls].
    + simpl in IH. subst rest. reflexivity.
    + rewrite concat_cons in IH. rewrite concat_cons, append_cons. congruence.
Qed.

End StringFacts.

(** ** The cache of pinned names *)

Section CacheFacts.

Import UpgradeSelected.

Variable compose : string -> string.

(** Every method is unfolded down to the cache with [run]. *)
Ltac run :=
  unfold has_package, _env_packages, _compose_output_file_path, bind, ret,
    lift, not_cached, setitem, getitem; simpl.

(** [except IOError] leaves no [IOError] behind. *)
Lemma _read_packages_raise (fs : filesystem) (outfile : string) (e : exn) :
  _read_packages fs outfile = Raise e -> fs outfile = Raise e /\ e <> IOError.
Proof.
  unfold _read_packages. destruct (fs outfile) as [content|[]]; intros H;
    try discriminate; injection H as <-; split; congruence.
Qed.

(** A populated entry is returned as it is; the file is not read. *)
Lemma _env_packages_cached (fs : filesystem) (env_name : string) (self : t)
    (pkgs : gset string) :
  _env_packages_cache self !! env_name = Some pkgs ->
  _env_packages compose fs env_name self = (Ok pkgs, self).
Proof.
  intros H. run. rewrite H.
  rewrite bool_decide_eq_false_2 by discriminate. simpl. rewrite H. reflexivity.
Qed.

(** An absent entry is read from the file and stored; when the read
    raises, nothing is stored. *)
Lemma _env_packages_fresh (fs : filesystem) (env_name : string) (self : t) :
  _env_packages_cache self !! env_name = None ->
  _env_packages compose fs env_name self =
    match _read_packages fs (compose env_name) with
    | Ok pkgs => (Ok pkgs, with_entry env_name pkgs self)
    | Raise e => (Raise e, self)
    end.
Proof.
  intros H. run. rewrite H.
  rewrite bool_decide_eq_true_2 by reflexivity.
  destruct (_read_packages fs (compose env_name)) as [pkgs|e]; simpl; [|reflexivity].
  rewrite lookup_insert_eq. reflexivity.
Qed.

(** What a returning query leaves behind. *)
Lemma _env_packages_ok (fs : filesystem) (env_name : string) (self self' : t)
    (pkgs : gset string) :
  _env_packages compose fs env_name self = (Ok pkgs, self') ->
  _env_packages_cache self' !! env_name = Some pkgs /\
  value self' = value self /\
  (forall other, other <> env_name ->
     _env_packages_cache self' !! other = _env_packages_cache self !! other).
Proof.
  destruct (_env_packages_cache self !! env_name) as [cached|] eqn:Hc.
  - rewrite (_env_packages_cached _ _ _ _ Hc). intros [= <- <-]. auto.
  - rewrite (_env_packages_fresh _ _ _ Hc).
    destruct (_read_packages fs (compose env_name)) as [read|e];
      intros [= <- <-]; simpl.
    rewrite lookup_insert_eq. split; [reflexivity|]. split; [reflexivity|].
    intros other Hne. apply lookup_insert_ne. congruence.
Qed.

(** A raising query changes nothing, and the exception is the one of the
    file system, never [IOError]. *)
Lemma _env_packages_raise (fs : filesystem) (env_name : string) (self self' : t)
    (e : exn) :
  _env_packages compose fs env_name self = (Raise e, self') ->
  self' = self /\ _env_packages_cache self !! env_name = None /\
  fs (compose env_name) = Raise e /\ e <> IOError.
Proof.
  destruct (_env_packages_cache self !! env_name) as [cached|] eqn:Hc.
  - rewrite (_env_packages_cached _ _ _ _ Hc). discriminate.
  - rewrite (_env_packages_fresh _ _ _ Hc).
    destruct (_read_packages fs (compose env_name)) as [read|e'] eqn:Hr;
      intros [= <- <-].
    apply _read_packages_raise in Hr. tauto.
Qed.

Lemma has_package_eq (fs : filesystem) (env_name package_name : string) (self : t) :
  has_package compose fs env_name package_name self =
    match _env_packages compose fs env_name self with
    | (Ok pkgs, self') => (Ok (pinned_in pkgs package_name), self')
    | (Raise e, self') => (Raise e, self')
    end.
Proof. reflexivity. Qed.

(** With the entry populated, the comprehension of [pin_options] filters
    the names and leaves the object as it is. *)
Lemma pin_options_from_cached (fs : filesystem) (env_name : string) (self : t)
    (pkgs : gset string) (names : list string) :
  _env_packages_cache self !! env_name = Some pkgs ->
  pin_options_from compose fs env_name names self
  = (Ok (upgrade_arguments pkgs names), self).
Proof.
  intros Hc. induction names as [|p names IH]; [reflexivity|].
  cbn [pin_options_from]. unfold bind at 1.
  rewrite has_package_eq, (_env_packages_cached _ _ _ _ Hc).
  unfold bind. rewrite IH. unfold ret, upgrade_arguments, pinned_in.
  rewrite filter_cons. case_bool_decide as Hp.
  - rewrite decide_True by exact Hp. reflexivity.
  - rewrite decide_False by exact Hp. reflexivity.
Qed.

Lemma any_pinned_iff (pkgs : gset string) (names : list string) :
  existsb (pinned_in pkgs) names = true <->
  exists p, p ∈ names /\ PyStr.lower p ∈ pkgs.
Proof.
  rewrite existsb_exists. unfold pinned_in.
  split; intros [p [Hin Hp]]; exists p.
  - apply list_elem_of_In in Hin. apply bool_decide_eq_true in Hp. auto.
  - split; [apply list_elem_of_In, Hin | apply bool_decide_eq_true, Hp].
Qed.

(** The same for the generator of [affected]. *)
Lemma any_has_package_cached (fs : filesystem) (env_name : string) (self : t)
    (pkgs : gset string) (names : list string) :
  _env_packages_cache self !! env_name = Some pkgs ->
  any_has_package compose fs env_name names self
  = (Ok (existsb (pinned_in pkgs) names), self).
Proof.
  intros Hc. induction names as [|p names IH]; [reflexivity|].
  cbn [any_has_package existsb]. unfold bind.
  rewrite has_package_eq, (_env_packages_cached _ _ _ _ Hc).
  destruct (pinned_in pkgs p); [reflexivity | exact IH].
Qed.

(** From any state: the first name triggers the one query of the pin
    set, the other names find the entry populated. *)
Lemma pin_options_from_eq (fs : filesystem) (env_name : string) (self : t)
    (p : string) (names : list string) :
  pin_options_from compose fs env_name (p :: names) self =
    match _env_packages compose fs env_name self with
    | (Ok pkgs, self') => (Ok (upgrade_arguments pkgs (p :: names)), self')
    | (Raise e, self') => (Raise e, self')
    end.
Proof.
  destruct (_env_packages compose fs env_name self) as [[pkgs|e] self'] eqn:Hq.
  - destruct (_env_packages_ok _ _ _ _ _ Hq) as [Hc _].
    cbn [pin_options_from]. unfold bind at 1. rewrite has_package_eq, Hq.
    unfold bind. rewrite (pin_options_from_cached _ _ _ _ _ Hc).
    unfold ret, upgrade_arguments, pinned_in.
    rewrite filter_cons. case_bool_decide as Hp.
    + rewrite decide_True by exact Hp. reflexivity.
    + rewrite decide_False by exact Hp. reflexivity.
  - cbn [pin_options_from]. unfold bind at 1. rewrite has_package_eq, Hq.
    reflexivity.
Qed.

Lemma any_has_package_eq (fs : filesystem) (env_name : string) (self : t)
    (p : string) (names : list string) :
  any_has_package compose fs env_name (p :: names) self =
    match _env_packages compose fs env_name self with
    | (Ok pkgs, self') => (Ok (existsb (pinned_in pkgs) (p :: names)), self')
    | (Raise e, self') => (Raise e, self')
    end.
Proof.
  destruct (_env_packages compose fs env_name self) as [[pkgs|e] self'] eqn:Hq.
  - destruct (_env_packages_ok _ _ _ _ _ Hq) as [Hc _].
    cbn [any_has_package existsb]. unfold bind. rewrite has_package_eq, Hq.
    destruct (pinned_in pkgs p); [reflexivity|].
    apply any_has_package_cached, Hc.
  - cbn [any_has_package]. unfold bind. rewrite has_package_eq, Hq. reflexivity.
Qed.

End CacheFacts.

(** ** The upgrade policies *)

Section Policies.

Import UpgradeSelected.

Variable compose : string -> string.

(** C1. [UpgradeSelected.affected]: selective upgrade is inactive exactly
    when [package_names] is empty, and then [affected] returns true for
    every environment without looking at any file; when it is active and
    the pin set of the environment is [pkgs], [affected] returns, and it
    returns true if and only if some requested name is, lower-cased, a
    member of [pkgs]. *)
Theorem affected_spec (fs : filesystem) (env_name : string) (self : t) :
  (active self = false <-> package_names self = []) /\
  (active self = false -> affected compose fs env_name self = (Ok true, self)) /\
  (active self = true ->
   forall pkgs, fst (_env_packages compose fs env_name self) = Ok pkgs ->
   exists b, fst (affected compose fs env_name self) = Ok b /\
     (b = true <-> exists p, p ∈ package_names self /\ PyStr.lower p ∈ pkgs)).
Proof.
  unfold affected, active.
  destruct (package_names self) as [|p names] eqn:Hn; cbn [negb].
  - split; [tauto|]. split; [reflexivity | discriminate].
  - split; [split; discriminate|]. split; [discriminate|].
    intros _ pkgs Hq. rewrite any_has_package_eq.
    destruct (_env_packages compose fs env_name self) as [[pkgs'|e] self'];
      simpl in Hq; [|discriminate].
    injection Hq as ->. eexists. split; [reflexivity|].
    apply any_pinned_iff.
Qed.

(** C3. [UpgradeSelected.pin_options]: when the pin set of the
    environment is [pkgs], [pin_options] returns, and its result is the
    list of ['--upgrade-package=' + package] for the requested packages
    whose lower-cased name is in [pkgs], in the order of [package_names];
    a requested name that is not pinned adds no argument and raises
    nothing. *)
Theorem pin_options_spec (fs : filesystem) (env_name : string) (self : t)
    (pkgs : gset string) :
  fst (_env_packages compose fs env_name self) = Ok pkgs ->
  exists opts,
    fst (pin_options compose fs env_name self) = Ok opts /\
    opts = (String.append "--upgrade-package="
              <$> filter (λ p, PyStr.lower p ∈ pkgs) (package_names self)) /\
    (forall package, package ∈ package_names self -> PyStr.lower package ∉ pkgs ->
       String.append "--upgrade-package=" package ∉ opts).
Proof.
  intros Hq. unfold pin_options.
  assert (Hnot : forall (names : list string) (package : string),
             PyStr.lower package ∉ pkgs ->
             String.append "--upgrade-package=" package
               ∉ upgrade_arguments pkgs names).
  { intros names package Hp Hin. unfold upgrade_arguments in Hin.
    apply list_elem_of_fmap in Hin as [q [Heq Hq']].
    apply list_elem_of_filter in Hq' as [Hq' _].
    apply (inj (String.app _)) in Heq. congruence. }
  destruct (package_names self) as [|p names] eqn:Hn.
  - exists []. split; [reflexivity|]. split; [reflexivity|].
    intros package Hin. inversion Hin.
  - rewrite pin_options_from_eq.
    destruct (_env_packages compose fs env_name self) as [[pkgs'|e] self'];
      simpl in Hq; [|discriminate].
    injection Hq as ->. eexists. split; [reflexivity|]. split; [reflexivity|].
    intros package _ Hp. apply Hnot, Hp.
Qed.

(** C6. With selective upgrade active, [affected] and [pin_options]
    agree on every environment: either both return, and [affected] is
    true exactly when [pin_options] is not empty, or both raise the same
    exception.  When they return, [pin_options] called after [affected]
    gives the same list again, whatever the files have become. *)
Theorem affected_iff_pin_options (fs : filesystem) (env_name : string) (self : t) :
  active self = true ->
  (exists b opts,
     fst (affected compose fs env_name self) = Ok b /\
     fst (pin_options compose fs env_name self) = Ok opts /\
     (b = true <-> opts <> []) /\
     (forall later : filesystem,
        fst (pin_options compose later env_name
               (snd (affected compose fs env_name self))) = Ok opts)) \/
  (exists e,
     fst (affected compose fs env_name self) = Raise e /\
     fst (pin_options compose fs env_name self) = Raise e).
Proof.
  unfold affected, pin_options, active.
  destruct (package_names self) as [|p names] eqn:Hn; [discriminate|]. intros _.
  cbn [negb]. rewrite any_has_package_eq, pin_options_from_eq.
  destruct (_env_packages compose fs env_name self) as [[pkgs|e] self'] eqn:Hq.
  - left. do 2 eexists. split; [reflexivity|]. split; [reflexivity|].
    split.
    + rewrite any_pinned_iff. unfold upgrade_arguments. split.
      * intros [q [Hin Hp]] Hnil. apply fmap_nil_inv in Hnil.
        assert (q ∈ filter (λ p, PyStr.lower p ∈ pkgs) (p :: names)) as Hf
          by (apply list_elem_of_filter; auto).
        rewrite Hnil in Hf. inversion Hf.
      * intros Hne.
        destruct (filter (λ p, PyStr.lower p ∈ pkgs) (p :: names))
          as [|q qs] eqn:Hf; [contradiction Hne; reflexivity|].
        assert (q ∈ filter (λ p, PyStr.lower p ∈ pkgs) (p :: names)) as Hp
          by (rewrite Hf; left).
        apply list_elem_of_filter in Hp. exists q. tauto.
    + intros later. simpl.
      destruct (_env_packages_ok _ _ _ _ _ _ Hq) as (Hc & Hv & _).
      assert (package_names self' = p :: names) as Hn'
        by (unfold package_names in *; rewrite Hv; exact Hn).
      rewrite Hn', (pin_options_from_cached _ _ _ _ _ _ Hc). reflexivity.
  - right. exists e. split; reflexivity.
Qed.

(** C7. When the option was not supplied ([value] is [None] or empty),
    [package_names] is empty, [active] is false, and for every
    environment and every state of the files [pin_options] returns the
    empty list and [affected] returns true; neither raises nor reads a
    file nor touches the cache. *)
Theorem absent_value_is_inert (self : t) :
  value self = None \/ value self = Some [] ->
  package_names self = [] /\
  active self = false /\
  (forall (fs : filesystem) (env_name : string),
     pin_options compose fs env_name self = (Ok [], self) /\
     affected compose fs env_name self = (Ok true, self)) /\
  value (reset self) = value self.
Proof.
  intros Hv.
  assert (package_names self = []) as Hn
    by (unfold package_names; destruct Hv as [-> | ->]; reflexivity).
  unfold active, pin_options, affected, active. rewrite Hn. auto.
Qed.

End Policies.

(** C2. [UpgradeAll.enabled] is true exactly when the flag is true and
    selective upgrade is not active; [pin_options] is [['--upgrade']]
    when enabled and empty otherwise; and a list of selected packages
    that is not empty disables [UpgradeAll] whatever the flag. *)
Theorem upgrade_all_exclusion (self : UpgradeAll.t)
    (upgrade_selected : UpgradeSelected.t) :
  (UpgradeAll.enabled self upgrade_selected = true <->
   UpgradeAll.value self = true /\
   UpgradeSelected.active upgrade_selected = false) /\
  (UpgradeAll.enabled self upgrade_selected = true ->
   UpgradeAll.pin_options self upgrade_selected = ["--upgrade"]) /\
  (UpgradeAll.enabled self upgrade_selected = false ->
   UpgradeAll.pin_options self upgrade_selected = []) /\
  (UpgradeSelected.package_names upgrade_selected <> [] ->
   UpgradeAll.enabled self upgrade_selected = false).
Proof.
  unfold UpgradeAll.pin_options, UpgradeAll.enabled, UpgradeSelected.active.
  destruct (UpgradeAll.value self);
    destruct (UpgradeSelected.package_names upgrade_selected); simpl;
    repeat split; try tauto; try congruence; intros []; congruence.
Qed.

(** ** Parsing the pins of a compiled file *)

Section Parsing.

Import UpgradeSelected.

Lemma filter_all {A : Type} (P : A -> Prop) `{forall x, Decision (P x)}
    (l : list A) :
  Forall P l -> filter P l = l.
Proof.
  induction 1 as [|x l Hx _ IH]; [reflexivity|].
  rewrite filter_cons, decide_True by exact Hx. congruence.
Qed.

Lemma filter_none {A : Type} (P : A -> Prop) `{forall x, Decision (P x)}
    (l : list A) :
  Forall (λ x, ~ P x) l -> filter P l = [].
Proof.
  induction 1 as [|x l Hx _ IH]; [reflexivity|].
  rewrite filter_cons, decide_False by exact Hx. exact IH.
Qed.

Lemma size_list_to_set_le (l : list string) :
  size (list_to_set l : gset string) <= length l.
Proof.
  induction l as [|x l IH].
  - rewrite list_to_set_nil, size_empty. reflexivity.
  - rewrite list_to_set_cons, size_union_alt, size_singleton. simpl.
    assert (size (list_to_set l ∖ {[x]} : gset string)
            <= size (list_to_set l : gset string)) as Hle
      by (apply subseteq_size, subseteq_difference_l; reflexivity).
    lia.
Qed.

(** The pins of a list of lines, whatever the order of the lines and
    whatever stands between the pin lines. *)
Lemma parse_pins_interleaved (lines pins others : list string) :
  Forall (λ line, PyStr.contains "==" line = true) pins ->
  Forall (λ line, PyStr.contains "==" line = false) others ->
  lines ≡ₚ pins ++ others ->
  parse_pins lines = list_to_set (pin_name <$> pins).
Proof.
  intros Hpins Hothers Hperm. unfold parse_pins.
  rewrite Hperm, filter_app.
  rewrite (filter_all _ pins).
  - rewrite (filter_none _ others), app_nil_r; [reflexivity|].
    eapply Forall_impl; [exact Hothers|].
    intros line Hline Hc. apply Is_true_true in Hc. congruence.
  - eapply Forall_impl; [exact Hpins|].
    intros line Hline. apply Is_true_true, Hline.
Qed.

(** C4. A readable output file whose lines are the pin lines [pins]
    (those that contain ['==']) and the other lines [others], in any
    order: [_read_packages] returns the set of the names of the pin
    lines, each the text before the leftmost ['=='] of its line,
    lower-cased; the other lines add nothing and the order plays no
    part.  The set has at most as many names as there are pin lines, and
    exactly as many when the names differ. *)
Theorem read_packages_pins (fs : filesystem) (outfile content : string)
    (pins others : list string) :
  fs outfile = Ok content ->
  Forall (λ line, PyStr.contains "==" line = true) pins ->
  Forall (λ line, PyStr.contains "==" line = false) others ->
  PyStr.iter_lines content ≡ₚ pins ++ others ->
  exists pkgs : gset string,
    _read_packages fs outfile = Ok pkgs /\
    (forall name, name ∈ pkgs <->
       exists line, line ∈ pins /\
         name = PyStr.lower (PyStr.split1_head "==" line)) /\
    (forall line, line ∈ pins ->
       (exists rest,
          line = String.append (PyStr.split1_head "==" line)
                   (String.append "==" rest)) /\
       (forall pre post,
          line = String.append pre (String.append "==" post) ->
          String.length (PyStr.split1_head "==" line) <= String.length pre)) /\
    size pkgs <= length pins /\
    (NoDup (pin_name <$> pins) -> size pkgs = length pins).
Proof.
  intros Hfs Hpins Hothers Hperm.
  exists (list_to_set (pin_name <$> pins)).
  split; [|split; [|split; [|split]]].
  - unfold _read_packages. rewrite Hfs.
    rewrite (parse_pins_interleaved _ pins others); auto.
  - intros name. rewrite elem_of_list_to_set, list_elem_of_fmap.
    unfold pin_name. split; intros [line [H1 H2]]; exists line; auto.
  - intros line Hin. rewrite Forall_forall in Hpins. split.
    + apply split1_head_present, Hpins, Hin.
    + intros pre post. apply split1_head_leftmost.
  - etransitivity; [apply size_list_to_set_le|]. rewrite length_fmap. lia.
  - intros Hnodup. rewrite size_list_to_set by exact Hnodup.
    apply length_fmap.
Qed.

End Parsing.

(** ** Memoization: snapshots and reset *)

Section Memo.

Import UpgradeSelected.

Variable compose : string -> string.

(** The object a method leaves behind is the one its query of the pin
    set leaves behind. *)
Lemma snd_has_package (fs : filesystem) (env_name P : string) (self : t) :
  snd (has_package compose fs env_name P self)
  = snd (_env_packages compose fs env_name self).
Proof.
  rewrite has_package_eq.
  destruct (_env_packages compose fs env_name self) as [[pkgs|e] self'];
    reflexivity.
Qed.

Lemma snd_pin_options (fs : filesystem) (env_name : string) (self : t) :
  snd (pin_options compose fs env_name self)
  = if active self then snd (_env_packages compose fs env_name self) else self.
Proof.
  unfold pin_options, active.
  destruct (package_names self) as [|p names]; [reflexivity|].
  rewrite pin_options_from_eq.
  destruct (_env_packages compose fs env_name self) as [[pkgs|e] self'];
    reflexivity.
Qed.

Lemma snd_affected (fs : filesystem) (env_name : string) (self : t) :
  snd (affected compose fs env_name self)
  = if active self then snd (_env_packages compose fs env_name self) else self.
Proof.
  unfold affected, active.
  destruct (package_names self) as [|p names]; [reflexivity|]. cbn [negb].
  rewrite any_has_package_eq.
  destruct (_env_packages compose fs env_name self) as [[pkgs|e] self'];
    reflexivity.
Qed.

(** A populated entry survives the query of any environment. *)
Lemma entry_kept (fs : filesystem) (env_name other : string) (self : t)
    (pkgs : gset string) :
  _env_packages_cache self !! env_name = Some pkgs ->
  _env_packages_cache (snd (_env_packages compose fs other self)) !! env_name
  = Some pkgs.
Proof.
  intros Hc.
  destruct (_env_packages compose fs other self) as [[read|e] self'] eqn:Hq.
  - destruct (decide (env_name = other)) as [->|Hne].
    + rewrite (_env_packages_cached _ _ _ _ _ Hc) in Hq.
      injection Hq as _ <-. exact Hc.
    + destruct (_env_packages_ok _ _ _ _ _ _ Hq) as (_ & _ & Hother).
      simpl. rewrite Hother by exact Hne. exact Hc.
  - apply _env_packages_raise in Hq as [-> _]. exact Hc.
Qed.

(** [reset] and every query keep the cache a snapshot of files that are
    not written in between. *)
Lemma snapshot_of_reset (fs : filesystem) (env_name : string) (self : t) :
  snapshot_of compose fs env_name (reset self).
Proof. intros pkgs H. simpl in H. rewrite lookup_empty in H. discriminate. Qed.

Lemma snapshot_of_kept (fs : filesystem) (env_name other : string) (self : t) :
  snapshot_of compose fs env_name self ->
  snapshot_of compose fs env_name (snd (_env_packages compose fs other self)).
Proof.
  intros Hsnap pkgs.
  destruct (_env_packages_cache self !! other) as [cached|] eqn:Hc.
  - rewrite (_env_packages_cached _ _ _ _ _ Hc). apply Hsnap.
  - rewrite (_env_packages_fresh _ _ _ _ Hc).
    destruct (_read_packages fs (compose other)) as [read|e] eqn:Hr;
      [|apply Hsnap].
    simpl. destruct (decide (other = env_name)) as [->|Hne].
    + rewrite lookup_insert_eq. congruence.
    + rewrite lookup_insert_ne by exact Hne. apply Hsnap.
Qed.

Lemma snapshot_of_methods (fs : filesystem) (env_name other P : string)
    (self : t) :
  snapshot_of compose fs env_name self ->
  snapshot_of compose fs env_name (snd (has_package compose fs other P self)) /\
  snapshot_of compose fs env_name (snd (affected compose fs other self)) /\
  snapshot_of compose fs env_name (snd (pin_options compose fs other self)).
Proof.
  intros Hsnap. rewrite snd_has_package, snd_affected, snd_pin_options.
  destruct (active self); auto using snapshot_of_kept.
Qed.

(** C5, as amended. An environment whose output file is missing, or
    whose opening or reading raises [IOError]: [_read_packages] returns
    the empty set and does not raise, and so does [_env_packages] when
    it reads the file or has memoized that read; the entry of the
    environment is the empty set afterwards, and no package is found in
    it. *)
Theorem missing_file_is_empty (fs : filesystem) (env_name : string) (self : t) :
  fs (compose env_name) = Raise IOError ->
  snapshot_of compose fs env_name self ->
  _read_packages fs (compose env_name) = Ok ∅ /\
  fst (_env_packages compose fs env_name self) = Ok ∅ /\
  _env_packages_cache (snd (_env_packages compose fs env_name self)) !! env_name
    = Some ∅ /\
  (forall P, fst (has_package compose fs env_name P self) = Ok false).
Proof.
  intros Hfs Hsnap.
  assert (_read_packages fs (compose env_name) = Ok ∅) as Hr
    by (unfold _read_packages; rewrite Hfs; reflexivity).
  assert (_env_packages compose fs env_name self
          = (Ok ∅, snd (_env_packages compose fs env_name self))) as Hq.
  { destruct (_env_packages_cache self !! env_name) as [cached|] eqn:Hc.
    - rewrite (_env_packages_cached _ _ _ _ _ Hc). simpl.
      specialize (Hsnap _ Hc). congruence.
    - rewrite (_env_packages_fresh _ _ _ _ Hc), Hr. reflexivity. }
  split; [exact Hr|]. split; [rewrite Hq; reflexivity|]. split.
  - apply (_env_packages_ok compose fs env_name self _ ∅ Hq).
  - intros P. rewrite has_package_eq, Hq. reflexivity.
Qed.

(** C8. After [reset] the cache is empty, so the next query of any
    environment reads its output file as it is then, whatever was
    memoized before: the pin set, [has_package], [affected] and
    [pin_options] are those of the file read at that moment (and raise
    what that read raises). *)
Theorem reset_rereads (fs : filesystem) (env_name : string) (self : t) :
  _env_packages_cache (reset self) = ∅ /\
  package_names (reset self) = package_names self /\
  fst (_env_packages compose fs env_name (reset self))
    = _read_packages fs (compose env_name) /\
  (forall P,
     fst (has_package compose fs env_name P (reset self))
     = result_map (λ pkgs, pinned_in pkgs P)
         (_read_packages fs (compose env_name))) /\
  (active self = true ->
   fst (affected compose fs env_name (reset self))
   = result_map (λ pkgs, existsb (pinned_in pkgs) (package_names self))
       (_read_packages fs (compose env_name))) /\
  (active self = true ->
   fst (pin_options compose fs env_name (reset self))
   = result_map (λ pkgs, upgrade_arguments pkgs (package_names self))
       (_read_packages fs (compose env_name))).
Proof.
  assert (_env_packages_cache (reset self) !! env_name = None) as Hc
    by apply lookup_empty.
  pose proof (_env_packages_fresh compose fs env_name (reset self) Hc) as Hq.
  split; [reflexivity|]. split; [reflexivity|].
  split; [|split; [|split]].
  - rewrite Hq. destruct (_read_packages fs (compose env_name)); reflexivity.
  - intros P. rewrite has_package_eq, Hq.
    destruct (_read_packages fs (compose env_name)); reflexivity.
  - unfold affected, active.
    change (package_names (reset self)) with (package_names self).
    destruct (package_names self) as [|p names]; [discriminate|]. intros _.
    cbn [negb]. rewrite any_has_package_eq, Hq.
    destruct (_read_packages fs (compose env_name)); reflexivity.
  - unfold pin_options, active.
    change (package_names (reset self)) with (package_names self).
    destruct (package_names self) as [|p names]; [discriminate|]. intros _.
    rewrite pin_options_from_eq, Hq.
    destruct (_read_packages fs (compose env_name)); reflexivity.
Qed.

(** C9. The entry of an environment is a snapshot: a query that returns
    the pin set [pkgs] leaves [pkgs] as the entry, and from then on,
    whatever the files have become, [_env_packages], [has_package],
    [affected] and [pin_options] answer from [pkgs], leave the object as
    it is, and so answer the same when repeated; queries of other
    environments keep the entry too. *)
Theorem cache_entry_is_snapshot (env_name : string) (pkgs : gset string) :
  (forall (fs : filesystem) (self : t),
     fst (_env_packages compose fs env_name self) = Ok pkgs ->
     _env_packages_cache (snd (_env_packages compose fs env_name self))
       !! env_name = Some pkgs) /\
  (forall self : t,
     _env_packages_cache self !! env_name = Some pkgs ->
     forall later : filesystem,
       _env_packages compose later env_name self = (Ok pkgs, self) /\
       (forall P,
          has_package compose later env_name P self
          = (Ok (pinned_in pkgs P), self)) /\
       affected compose later env_name self
         = (Ok (negb (active self)
                || existsb (pinned_in pkgs) (package_names self)), self) /\
       pin_options compose later env_name self
         = (Ok (upgrade_arguments pkgs (package_names self)), self) /\
       (forall other P,
          _env_packages_cache (snd (has_package compose later other P self))
            !! env_name = Some pkgs /\
          _env_packages_cache (snd (affected compose later other self))
            !! env_name = Some pkgs /\
          _env_packages_cache (snd (pin_options compose later other self))
            !! env_name = Some pkgs)).
Proof.
  split.
  - intros fs self Hq.
    destruct (_env_packages compose fs env_name self) as [[read|e] self'] eqn:Hr;
      simpl in Hq; [|discriminate].
    injection Hq as ->. apply (_env_packages_ok _ _ _ _ _ _ Hr).
  - intros self Hc later.
    split; [apply _env_packages_cached, Hc|].
    split; [intros P; rewrite has_package_eq, (_env_packages_cached _ _ _ _ _ Hc);
            reflexivity|].
    split; [|split].
    + unfold affected, active.
      destruct (package_names self) as [|p names] eqn:Hn; [reflexivity|].
      cbn [negb orb]. apply any_has_package_cached, Hc.
    + apply pin_options_from_cached, Hc.
    + intros other P.
      rewrite snd_has_package, snd_affected, snd_pin_options.
      destruct (active self); auto using entry_kept.
Qed.

(** Membership in the pins of a list of lines. *)
Lemma elem_of_parse_pins (lines : list string) (name : string) :
  name ∈ parse_pins lines <->
  exists line, line ∈ lines /\ PyStr.contains "==" line = true /\
    name = PyStr.lower (PyStr.split1_head "==" line).
Proof.
  unfold parse_pins. rewrite elem_of_list_to_set, list_elem_of_fmap.
  split.
  - intros (line & Hname & Hin). apply list_elem_of_filter in Hin as [Hpin Hin].
    exists line. split; [exact Hin|]. split; [apply Is_true_true, Hpin|exact Hname].
  - intros (line & Hin & Hpin & Hname). exists line. split; [exact Hname|].
    apply list_elem_of_filter. split; [apply Is_true_true, Hpin | exact Hin].
Qed.

(** C10. [has_package] depends only on the lower-cased form of the name
    and of the pinned names of the file.  The answer for [P] is the
    answer for [P.lower()], and two names that agree up to case get the
    same answer.  When the pin set of the environment is [pkgs] the
    answer is true if and only if the lower-cased name is in [pkgs]; on
    a first query of a readable file that is: if and only if the name
    agrees up to case with the text before the first ['=='] of one of
    the pin lines, so that [Foo==1.0] is found as [foo] and as [FOO] and
    a name that is not pinned is not found.  Two files whose pin lines
    give the same lower-cased names get the same answer and leave the
    same object. *)
Theorem has_package_ignores_case (fs : filesystem) (env_name P : string)
    (self : t) :
  has_package compose fs env_name P self
    = has_package compose fs env_name (PyStr.lower P) self /\
  (forall Q, PyStr.lower P = PyStr.lower Q ->
     has_package compose fs env_name P self
     = has_package compose fs env_name Q self) /\
  (forall pkgs,
     fst (_env_packages compose fs env_name self) = Ok pkgs ->
     exists b,
       fst (has_package compose fs env_name P self) = Ok b /\
       (b = true <-> PyStr.lower P ∈ pkgs)) /\
  (forall content,
     _env_packages_cache self !! env_name = None ->
     fs (compose env_name) = Ok content ->
     exists b,
       fst (has_package compose fs env_name P self) = Ok b /\
       (b = true <->
        exists line, line ∈ PyStr.iter_lines content /\
          PyStr.contains "==" line = true /\
          PyStr.lower P = PyStr.lower (PyStr.split1_head "==" line))) /\
  (forall (fs' : filesystem) content content',
     _env_packages_cache self !! env_name = None ->
     fs (compose env_name) = Ok content ->
     fs' (compose env_name) = Ok content' ->
     (forall name,
        (exists line, line ∈ PyStr.iter_lines content /\
           PyStr.contains "==" line = true /\
           name = PyStr.lower (PyStr.split1_head "==" line)) <->
        (exists line, line ∈ PyStr.iter_lines content' /\
           PyStr.contains "==" line = true /\
           name = PyStr.lower (PyStr.split1_head "==" line))) ->
     has_package compose fs env_name P self
     = has_package compose fs' env_name P self).
Proof.
  assert (Hlow : forall Q, PyStr.lower P = PyStr.lower Q ->
            has_package compose fs env_name P self
            = has_package compose fs env_name Q self).
  { intros Q HQ. rewrite !has_package_eq. unfold pinned_in. rewrite HQ.
    reflexivity. }
  assert (Hfresh : forall (files : filesystem) content,
            _env_packages_cache self !! env_name = None ->
            files (compose env_name) = Ok content ->
            has_package compose files env_name P self
            = (Ok (pinned_in (parse_pins (PyStr.iter_lines content)) P),
               with_entry env_name (parse_pins (PyStr.iter_lines content)) self)).
  { intros files content Hc Hfiles.
    rewrite has_package_eq, (_env_packages_fresh _ _ _ _ Hc).
    unfold _read_packages. rewrite Hfiles. reflexivity. }
  split; [apply Hlow; symmetry; apply lower_idemp|]. split; [exact Hlow|].
  split; [|split].
  - intros pkgs Hq. rewrite has_package_eq.
    destruct (_env_packages compose fs env_name self) as [[pkgs'|e] self'];
      simpl in Hq; [|discriminate].
    injection Hq as ->. eexists. split; [reflexivity|].
    unfold pinned_in. apply bool_decide_eq_true.
  - intros content Hc Hfs. rewrite (Hfresh fs content Hc Hfs).
    eexists. split; [reflexivity|].
    unfold pinned_in. rewrite bool_decide_eq_true. apply elem_of_parse_pins.
  - intros fs' content content' Hc Hfs Hfs' Hsame.
    rewrite (Hfresh fs content Hc Hfs), (Hfresh fs' content' Hc Hfs').
    assert (parse_pins (PyStr.iter_lines content)
            = parse_pins (PyStr.iter_lines content')) as ->; [|reflexivity].
    apply set_eq. intros name. rewrite !elem_of_parse_pins. apply Hsame.
Qed.

End Memo.

(** ** The methods at work on the small project *)

Section Runs.

Import UpgradeSelected.

Example read_base :
  elements Demo.base_pins ≡ₚ ["foo"; "six"].
Proof. apply (bool_decide_unpack _). vm_compute. exact I. Qed.

Example unreadable_file_raises :
  fst (affected Demo.compose Demo.fs "broken" Demo.selected) = Raise OtherError.
Proof. reflexivity. Qed.

(** Without [-P] the environment [docs] is affected; with [-P FOO -P bar]
    the environment [base], which pins [Foo], is affected. *)
Lemma affected_spec_witness :
  affected Demo.compose Demo.fs "docs" Demo.unset = (Ok true, Demo.unset) /\
  (exists b,
     fst (affected Demo.compose Demo.fs "base" Demo.selected) = Ok b /\
     (b = true <->
      exists p, p ∈ package_names Demo.selected /\ PyStr.lower p ∈ Demo.base_pins)).
Proof.
  split.
  - apply (affected_spec Demo.compose Demo.fs "docs" Demo.unset). reflexivity.
  - apply (affected_spec Demo.compose Demo.fs "base" Demo.selected); reflexivity.
Defined.

(** [--upgrade] alone, [--no-upgrade] alone, and [--upgrade] with [-P]. *)
Lemma upgrade_all_exclusion_witness :
  UpgradeAll.pin_options (UpgradeAll.mk true) Demo.unset = ["--upgrade"] /\
  UpgradeAll.pin_options (UpgradeAll.mk false) Demo.unset = [] /\
  UpgradeAll.enabled (UpgradeAll.mk true) Demo.selected = false.
Proof.
  split; [|split].
  - apply (upgrade_all_exclusion (UpgradeAll.mk true) Demo.unset). reflexivity.
  - apply (upgrade_all_exclusion (UpgradeAll.mk false) Demo.unset). reflexivity.
  - apply (upgrade_all_exclusion (UpgradeAll.mk true) Demo.selected). discriminate.
Defined.

(** [base.txt] pins [Foo] but not [bar]: one argument, for [FOO]. *)
Lemma pin_options_spec_witness :
  fst (_env_packages Demo.compose Demo.fs "base" Demo.selected)
    = Ok Demo.base_pins /\
  fst (pin_options Demo.compose Demo.fs "base" Demo.selected)
    = Ok ["--upgrade-package=FOO"].
Proof.
  split; [reflexivity|].
  destruct (pin_options_spec Demo.compose Demo.fs "base" Demo.selected
              Demo.base_pins eq_refl) as (opts & Hret & Hopts & _).
  rewrite Hret, Hopts. reflexivity.
Defined.

(** [base.txt]: two pin lines between a comment and an empty line. *)
Lemma read_packages_pins_witness :
  PyStr.iter_lines Demo.base_txt ≡ₚ Demo.pin_lines ++ Demo.other_lines /\
  exists pkgs : gset string,
    _read_packages Demo.fs "requirements/base.txt" = Ok pkgs /\
    (forall name, name ∈ pkgs <->
       exists line, line ∈ Demo.pin_lines /\
         name = PyStr.lower (PyStr.split1_head "==" line)) /\
    size pkgs = 2.
Proof.
  assert (PyStr.iter_lines Demo.base_txt ≡ₚ Demo.pin_lines ++ Demo.other_lines)
    as Hperm by (apply (bool_decide_unpack _); vm_compute; exact I).
  split; [exact Hperm|].
  destruct (read_packages_pins Demo.fs "requirements/base.txt" Demo.base_txt
              Demo.pin_lines Demo.other_lines eq_refl)
    as (pkgs & Hret & Hnames & _ & _ & Hsize).
  - repeat constructor.
  - repeat constructor.
  - exact Hperm.
  - exists pkgs. split; [exact Hret|]. split; [exact Hnames|].
    apply Hsize. apply (bool_decide_unpack _). vm_compute. exact I.
Defined.

(** [docs] has no output file. *)
Lemma missing_file_is_empty_witness :
  Demo.fs (Demo.compose "docs") = Raise IOError /\
  fst (_env_packages Demo.compose Demo.fs "docs" Demo.selected) = Ok ∅ /\
  fst (has_package Demo.compose Demo.fs "docs" "foo" Demo.selected) = Ok false.
Proof.
  split; [reflexivity|].
  destruct (missing_file_is_empty Demo.compose Demo.fs "docs" Demo.selected
              eq_refl (snapshot_of_reset Demo.compose Demo.fs "docs" _))
    as (_ & Hset & _ & Hhas).
  split; [exact Hset | apply Hhas].
Defined.

(** [-P FOO -P bar] on the environment [test]. *)
Lemma affected_iff_pin_options_witness :
  active Demo.selected = true /\
  fst (affected Demo.compose Demo.fs "test" Demo.selected) = Ok true /\
  fst (pin_options Demo.compose Demo.fs "test" Demo.selected)
    = Ok ["--upgrade-package=bar"] /\
  fst (affected Demo.compose Demo.fs "docs" Demo.selected) = Ok false /\
  fst (pin_options Demo.compose Demo.fs "docs" Demo.selected) = Ok [].
Proof.
  split; [reflexivity|].
  destruct (affected_iff_pin_options Demo.compose Demo.fs "test" Demo.selected
              eq_refl) as [(b & opts & Hb & Hopts & Hiff & _)|(e & He & _)];
    [|discriminate He].
  destruct (affected_iff_pin_options Demo.compose Demo.fs "docs" Demo.selected
              eq_refl) as [(b' & opts' & Hb' & Hopts' & Hiff' & _)|(e & He & _)];
    [|discriminate He].
  rewrite Hb, Hopts, Hb', Hopts'.
  assert (opts = ["--upgrade-package=bar"]) as ->
    by (revert Hopts; intros [= <-]; reflexivity).
  assert (opts' = []) as -> by (revert Hopts'; intros [= <-]; reflexivity).
  split; [f_equal; apply Hiff; discriminate|]. split; [reflexivity|].
  split; [|reflexivity].
  destruct b'; [|reflexivity].
  destruct (proj1 Hiff' eq_refl). reflexivity.
Defined.

(** No [-P], on an environment whose file can not even be decoded. *)
Lemma absent_value_is_inert_witness :
  value Demo.unset = None /\
  package_names Demo.unset = [] /\
  active Demo.unset = false /\
  pin_options Demo.compose Demo.fs "broken" Demo.unset = (Ok [], Demo.unset) /\
  affected Demo.compose Demo.fs "broken" Demo.unset = (Ok true, Demo.unset).
Proof.
  split; [reflexivity|].
  destruct (absent_value_is_inert Demo.compose Demo.unset (or_introl eq_refl))
    as (Hnames & Hactive & Hrun & _).
  split; [exact Hnames|]. split; [exact Hactive|].
  apply (Hrun Demo.fs "broken").
Defined.

(** [base] is compiled again after a first query: the stale answer
    before [reset], the answer of the new file after it. *)
Lemma reset_rereads_witness :
  fst (has_package Demo.compose Demo.fs' "base" "foo" Demo.queried) = Ok true /\
  fst (has_package Demo.compose Demo.fs' "base" "foo" (reset Demo.queried))
    = Ok false /\
  fst (has_package Demo.compose Demo.fs' "base" "six" (reset Demo.queried))
    = Ok true /\
  fst (affected Demo.compose Demo.fs' "base" (reset Demo.queried)) = Ok false.
Proof.
  split; [reflexivity|].
  destruct (reset_rereads Demo.compose Demo.fs' "base" Demo.queried)
    as (_ & _ & _ & Hhas & Haff & _).
  split; [|split].
  - rewrite Hhas. reflexivity.
  - rewrite Hhas. reflexivity.
  - rewrite (Haff eq_refl). reflexivity.
Defined.

(** [base] is compiled again after a first query: the answers stay
    those of the first file. *)
Lemma cache_entry_is_snapshot_witness :
  _env_packages_cache Demo.queried !! "base" = Some Demo.base_pins /\
  _read_packages Demo.fs' (Demo.compose "base") <> Ok Demo.base_pins /\
  has_package Demo.compose Demo.fs' "base" "foo" Demo.queried
    = (Ok true, Demo.queried) /\
  pin_options Demo.compose Demo.fs' "base" Demo.queried
    = (Ok ["--upgrade-package=FOO"], Demo.queried).
Proof.
  destruct (cache_entry_is_snapshot Demo.compose "base" Demo.base_pins)
    as [Hfirst Hlater].
  assert (_env_packages_cache Demo.queried !! "base" = Some Demo.base_pins)
    as Hentry by (apply (Hfirst Demo.fs Demo.selected); reflexivity).
  destruct (Hlater Demo.queried Hentry Demo.fs') as (_ & Hhas & _ & Hopts & _).
  split; [exact Hentry|]. split; [|split].
  - intros Heq.
    apply (f_equal (result_map (λ pkgs, pinned_in pkgs "foo"))) in Heq.
    vm_compute in Heq. discriminate Heq.
  - rewrite Hhas. reflexivity.
  - rewrite Hopts. reflexivity.
Defined.

(** [Foo==1.0] is found as [foo] and as [FOO]; [bar] is not pinned in
    [base.txt] and is not found. *)
Lemma has_package_ignores_case_witness :
  fst (has_package Demo.compose Demo.fs "base" "foo" Demo.selected) = Ok true /\
  fst (has_package Demo.compose Demo.fs "base" "FOO" Demo.selected) = Ok true /\
  fst (has_package Demo.compose Demo.fs "base" "bar" Demo.selected) = Ok false /\
  has_package Demo.compose Demo.fs "base" "Six" Demo.selected
    = has_package Demo.compose Demo.fs "base" "six" Demo.selected.
Proof.
  assert (String.append "Foo==1.0" Demo.nl ∈ PyStr.iter_lines Demo.base_txt)
    as Hline by (apply (bool_decide_unpack _); vm_compute; exact I).
  destruct (has_package_ignores_case Demo.compose Demo.fs "base" "foo"
              Demo.selected) as (_ & _ & _ & Hfoo & _).
  destruct (has_package_ignores_case Demo.compose Demo.fs "base" "FOO"
              Demo.selected) as (_ & _ & _ & HFOO & _).
  destruct (has_package_ignores_case Demo.compose Demo.fs "base" "bar"
              Demo.selected) as (_ & _ & Hbar & _ & _).
  destruct (has_package_ignores_case Demo.compose Demo.fs "base" "Six"
              Demo.selected) as (Hsix & _ & _ & _ & _).
  destruct (Hfoo Demo.base_txt eq_refl eq_refl) as (b1 & Hb1 & Hiff1).
  destruct (HFOO Demo.base_txt eq_refl eq_refl) as (b2 & Hb2 & Hiff2).
  destruct (Hbar Demo.base_pins eq_refl) as (b3 & Hb3 & Hiff3).
  split; [|split; [|split]].
  - rewrite Hb1. f_equal. apply Hiff1.
    exists (String.append "Foo==1.0" Demo.nl).
    split; [exact Hline | split; reflexivity].
  - rewrite Hb2. f_equal. apply Hiff2.
    exists (String.append "Foo==1.0" Demo.nl).
    split; [exact Hline | split; reflexivity].
  - rewrite Hb3. f_equal. destruct b3; [|reflexivity].
    exfalso. assert ("bar" ∉ Demo.base_pins) as Hnot
      by (apply (bool_decide_unpack _); vm_compute; exact I).
    apply Hnot, Hiff3. reflexivity.
  - exact Hsix.
Defined.

(** [broken] has an output file that can not be read, and the query of
    its pins raises instead of returning the empty set. *)
Lemma unreadable_file_not_swallowed :
  Demo.fs (Demo.compose "broken") = Raise OtherError /\
  fst (_env_packages Demo.compose Demo.fs "broken" Demo.selected)
    = Raise OtherError /\
  fst (_env_packages Demo.compose Demo.fs "broken" Demo.selected) <> Ok ∅.
Proof.
  split; [reflexivity|]. split; [reflexivity|]. discriminate.
Defined.

End Runs.

(** ** Runs of queries on one object *)

Section RunFacts.

Import UpgradeSelected.

Variable compose : string -> string.

(** Every call is at most one query of the pin set of its environment. *)
Lemma ask_eq (fs : filesystem) (q : query) (self : t) :
  ask compose fs q self =
    if consults q self
    then match _env_packages compose fs (env_of q) self with
         | (Ok pkgs, self') => (Ok (answer_in pkgs (package_names self) q), self')
         | (Raise e, self') => (Raise e, self')
         end
    else (Ok (answer_in ∅ (package_names self) q), self).
Proof.
  destruct q as [env_name P|env_name|env_name]; cbn [ask consults env_of].
  - rewrite has_package_eq.
    destruct (_env_packages compose fs env_name self) as [[pkgs|e] self'];
      reflexivity.
  - unfold affected, active.
    destruct (package_names self) as [|p names]; [reflexivity|]. cbn [negb].
    rewrite any_has_package_eq.
    destruct (_env_packages compose fs env_name self) as [[pkgs|e] self'];
      reflexivity.
  - unfold pin_options, active.
    destruct (package_names self) as [|p names]; [reflexivity|].
    rewrite pin_options_from_eq.
    destruct (_env_packages compose fs env_name self) as [[pkgs|e] self'];
      reflexivity.
Qed.

Lemma snd_env_packages (fs : filesystem) (env_name : string) (self : t) :
  snd (_env_packages compose fs env_name self) = populate compose fs env_name self.
Proof.
  unfold populate.
  destruct (_env_packages_cache self !! env_name) as [cached|] eqn:Hc.
  - rewrite (_env_packages_cached _ _ _ _ _ Hc). reflexivity.
  - rewrite (_env_packages_fresh _ _ _ _ Hc).
    destruct (_read_packages fs (compose env_name)); reflexivity.
Qed.

Lemma snd_ask (fs : filesystem) (q : query) (self : t) :
  snd (ask compose fs q self)
  = if consults q self then populate compose fs (env_of q) self else self.
Proof.
  rewrite ask_eq. destruct (consults q self); [|reflexivity].
  rewrite <- snd_env_packages.
  destruct (_env_packages compose fs (env_of q) self) as [[pkgs|e] self'];
    reflexivity.
Qed.

Lemma value_populate (fs : filesystem) (env_name : string) (self : t) :
  value (populate compose fs env_name self) = value self.
Proof.
  unfold populate.
  destruct (_env_packages_cache self !! env_name);
    destruct (_read_packages fs (compose env_name)); reflexivity.
Qed.

Lemma consults_populate (fs : filesystem) (env_name : string) (q : query)
    (self : t) :
  consults q (populate compose fs env_name self) = consults q self.
Proof.
  destruct q; [reflexivity| |];
    unfold consults, active, package_names; rewrite value_populate; reflexivity.
Qed.

(** With the entry a snapshot of the file, the memoized query gives what
    reading the file gives. *)
Lemma env_packages_transparent (fs : filesystem) (env_name : string) (self : t) :
  snapshot_of compose fs env_name self ->
  fst (_env_packages compose fs env_name self)
  = _read_packages fs (compose env_name).
Proof.
  intros Hsnap.
  destruct (_env_packages_cache self !! env_name) as [cached|] eqn:Hc.
  - rewrite (_env_packages_cached _ _ _ _ _ Hc). simpl. symmetry. apply Hsnap, Hc.
  - rewrite (_env_packages_fresh _ _ _ _ Hc).
    destruct (_read_packages fs (compose env_name)); reflexivity.
Qed.

Lemma snapshot_of_populate (fs : filesystem) (env_name other : string) (self : t) :
  snapshot_of compose fs env_name self ->
  snapshot_of compose fs env_name (populate compose fs other self).
Proof. rewrite <- snd_env_packages. apply snapshot_of_kept. Qed.

(** Two queries of pin sets may be swapped. *)
Lemma populate_swap (fs : filesystem) (e1 e2 : string) (self : t) :
  populate compose fs e1 (populate compose fs e2 self)
  = populate compose fs e2 (populate compose fs e1 self).
Proof.
  destruct (decide (e1 = e2)) as [->|Hne]; [reflexivity|].
  unfold populate.
  destruct (_env_packages_cache self !! e1) as [c1|] eqn:H1;
    destruct (_env_packages_cache self !! e2) as [c2|] eqn:H2;
    destruct (_read_packages fs (compose e1)) as [p1|x1];
    destruct (_read_packages fs (compose e2)) as [p2|x2];
    cbn [with_entry _env_packages_cache value];
    rewrite ?lookup_insert_ne by congruence; rewrite ?H1, ?H2;
    try reflexivity.
  unfold with_entry. cbn [_env_packages_cache value]. f_equal.
  apply insert_insert_ne. congruence.
Qed.

(** X1. A call raises only because the read of the output file raised:
    [ask] raises [e] exactly when the call asks for the pin set, the
    entry of its environment is absent, and opening or reading the file
    raised [e], which is not [IOError]; the object is then left as it
    was, so that nothing is memoized for the environment. *)
Theorem raise_only_from_unreadable_file (fs : filesystem) (q : query)
    (self : t) (e : exn) :
  (fst (ask compose fs q self) = Raise e <->
   consults q self = true /\
   _env_packages_cache self !! env_of q = None /\
   fs (compose (env_of q)) = Raise e /\ e <> IOError) /\
  (fst (ask compose fs q self) = Raise e -> snd (ask compose fs q self) = self).
Proof.
  rewrite ask_eq. destruct (consults q self).
  - destruct (_env_packages compose fs (env_of q) self) as [[pkgs|e'] self'] eqn:Hq.
    + split; [|discriminate]. split; [discriminate|].
      intros (_ & Hc & Hfs & He).
      rewrite (_env_packages_fresh _ _ _ _ Hc) in Hq. unfold _read_packages in Hq.
      rewrite Hfs in Hq. destruct e; congruence.
    + apply _env_packages_raise in Hq as (-> & Hc & Hfs & He).
      split; [|reflexivity]. simpl. split.
      * intros [= <-]. auto.
      * intros (_ & _ & Hfs' & _). congruence.
  - split; [|discriminate]. split; [discriminate|]. intros [[=] _].
Qed.

(** X2. A missing output file is memoized as the empty set: once a call
    has asked for the pin set of an environment whose file could not be
    opened, every later call on that environment answers as for no pin,
    whatever file has been written since. *)
Theorem missing_file_is_memoized (fs : filesystem) (first : query) (self : t) :
  consults first self = true ->
  _env_packages_cache self !! env_of first = None ->
  fs (compose (env_of first)) = Raise IOError ->
  forall later : filesystem,
    (forall P,
       fst (has_package compose later (env_of first) P
              (snd (ask compose fs first self))) = Ok false) /\
    fst (pin_options compose later (env_of first)
           (snd (ask compose fs first self))) = Ok [] /\
    (active self = true ->
     fst (affected compose later (env_of first)
            (snd (ask compose fs first self))) = Ok false).
Proof.
  intros Hcons Hc Hfs later.
  rewrite snd_ask, Hcons. unfold populate. rewrite Hc.
  unfold _read_packages. rewrite Hfs.
  set (self' := with_entry (env_of first) ∅ self).
  assert (_env_packages_cache self' !! env_of first = Some ∅) as Hc'
    by apply lookup_insert_eq.
  assert (forall names, upgrade_arguments ∅ names = []) as Hnone.
  { intros names. unfold upgrade_arguments.
    induction names as [|p names IH]; [reflexivity|].
    rewrite filter_cons, decide_False by apply not_elem_of_empty. exact IH. }
  assert (forall names, existsb (pinned_in ∅) names = false) as Hnot.
  { intros names. induction names as [|p names IH]; [reflexivity|].
    simpl. rewrite IH. unfold pinned_in.
    rewrite bool_decide_eq_false_2 by apply not_elem_of_empty. reflexivity. }
  split; [|split].
  - intros P. rewrite has_package_eq, (_env_packages_cached _ _ _ _ _ Hc').
    unfold pinned_in. simpl.
    rewrite bool_decide_eq_false_2 by apply not_elem_of_empty. reflexivity.
  - unfold pin_options.
    rewrite (pin_options_from_cached _ _ _ _ _ _ Hc'), Hnone. reflexivity.
  - unfold affected, active. change (package_names self') with (package_names self).
    destruct (package_names self) as [|p names]; [discriminate|]. intros _.
    cbn [negb]. rewrite (any_has_package_cached _ _ _ _ _ _ Hc'), Hnot.
    reflexivity.
Qed.

(** X3. A call on one environment leaves the requested names and the
    entries of all other environments as they were, and it leaves the
    whole object as it was when the entry of its environment is already
    there. *)
Theorem query_frame (fs : filesystem) (q : query) (self : t) :
  package_names (snd (ask compose fs q self)) = package_names self /\
  (forall other, other <> env_of q ->
     _env_packages_cache (snd (ask compose fs q self)) !! other
     = _env_packages_cache self !! other) /\
  (is_Some (_env_packages_cache self !! env_of q) ->
   snd (ask compose fs q self) = self).
Proof.
  rewrite snd_ask. destruct (consults q self); [|auto].
  split; [|split].
  - unfold package_names. rewrite value_populate. reflexivity.
  - intros other Hne. unfold populate.
    destruct (_env_packages_cache self !! env_of q);
      destruct (_read_packages fs (compose (env_of q))); try reflexivity.
    apply lookup_insert_ne. congruence.
  - intros [cached Hc]. unfold populate. rewrite Hc. reflexivity.
Qed.

(** The invariant of a run on unchanged files. *)
Lemma run_invariant (fs : filesystem) (qs : list query) (self : t) :
  (forall env_name, snapshot_of compose fs env_name self) ->
  value (run compose fs qs self) = value self /\
  (forall env_name, snapshot_of compose fs env_name (run compose fs qs self)).
Proof.
  revert self. induction qs as [|q qs IH]; intros self Hsnap; [auto|].
  cbn [run]. rewrite snd_ask.
  destruct (consults q self); [|apply IH, Hsnap].
  destruct (IH (populate compose fs (env_of q) self)) as [Hv Hs].
  - intros env_name. apply snapshot_of_populate, Hsnap.
  - rewrite value_populate in Hv. auto.
Qed.

(** X4. Memoization is transparent while the files do not change: after
    [reset] and any sequence of calls, each call answers what reading
    the output file of its environment at that moment would answer (and
    raises what that read would raise); the history of calls plays no
    part. *)
Theorem answers_independent_of_history (fs : filesystem) (qs : list query)
    (q : query) (self : t) :
  fst (ask compose fs q (run compose fs qs (reset self)))
  = answer_from_file compose fs (package_names self) q (consults q self).
Proof.
  destruct (run_invariant fs qs (reset self)) as [Hv Hs].
  { intros env_name. apply snapshot_of_reset. }
  set (now := run compose fs qs (reset self)) in *.
  assert (package_names now = package_names self) as Hn
    by (unfold package_names; rewrite Hv; reflexivity).
  assert (consults q now = consults q self) as Hcons
    by (destruct q; [reflexivity| |]; unfold consults, active; rewrite Hn;
        reflexivity).
  rewrite ask_eq, Hcons, Hn. unfold answer_from_file.
  destruct (consults q self); [|reflexivity].
  rewrite <- (env_packages_transparent fs (env_of q) now (Hs _)).
  destruct (_env_packages compose fs (env_of q) now) as [[pkgs|e] self'];
    reflexivity.
Qed.

(** X5. The object a run leaves behind does not depend on the order of
    its calls: two runs of the same calls, in any order, on the same
    files, end with the same cache. *)
Theorem run_order_irrelevant (fs : filesystem) (qs qs' : list query) (self : t) :
  qs ≡ₚ qs' -> run compose fs qs self = run compose fs qs' self.
Proof.
  intros Hperm. revert self.
  induction Hperm as [|q qs qs' _ IH|q1 q2 qs|qs1 qs2 qs3 _ IH1 _ IH2];
    intros self; cbn [run].
  - reflexivity.
  - apply IH.
  - f_equal. rewrite !snd_ask.
    destruct (consults q1 self) eqn:H1; destruct (consults q2 self) eqn:H2;
      rewrite ?consults_populate, ?H1, ?H2; try reflexivity.
    apply populate_swap.
  - rewrite IH1. apply IH2.
Qed.

End RunFacts.

(** ** More on pin lines *)

Section PinLines.

Import UpgradeSelected.

Lemma append_assoc (a b c : string) :
  String.append (String.append a b) c = String.append a (String.append b c).
Proof.
  induction a as [|x a IH]; [reflexivity|].
  rewrite !append_cons, IH. reflexivity.
Qed.

Lemma startswith_append (sep t rest : string) :
  PyStr.startswith sep t = true ->
  PyStr.startswith sep (String.append t rest) = true.
Proof.
  rewrite !startswith_iff. intros [r ->].
  exists (String.append r rest). apply append_assoc.
Qed.

(** The head of the split is a prefix of the string. *)
Lemma split1_head_prefix (sep s : string) :
  exists rest, s = String.append (PyStr.split1_head sep s) rest.
Proof.
  induction s as [|c s [rest IH]]; simpl.
  - exists EmptyString. destruct (PyStr.startswith sep EmptyString); reflexivity.
  - destruct (PyStr.startswith sep (String c s)).
    + exists (String c s). reflexivity.
    + exists rest. rewrite append_cons. congruence.
Qed.

(** The head of the split holds no separator. *)
Lemma split1_head_clean (sep s : string) :
  sep <> EmptyString ->
  PyStr.contains sep (PyStr.split1_head sep s) = false.
Proof.
  intros Hsep.
  assert (PyStr.startswith sep EmptyString = false) as Hnil
    by (destruct sep; [contradiction Hsep|]; reflexivity).
  induction s as [|c s IH]; simpl.
  - rewrite Hnil. simpl. rewrite Hnil. reflexivity.
  - destruct (PyStr.startswith sep (String c s)) eqn:Hs.
    + simpl. rewrite Hnil. reflexivity.
    + cbn [PyStr.contains]. rewrite IH, orb_false_r.
      destruct (PyStr.startswith sep (String c (PyStr.split1_head sep s)))
        eqn:Hh; [|reflexivity].
      destruct (split1_head_prefix sep s) as [rest Hrest].
      apply (startswith_append _ _ rest) in Hh.
      rewrite append_cons, <- Hrest in Hh. congruence.
Qed.

Lemma lower_ascii_eq_sign (c : ascii) :
  PyStr.lower_ascii c = "="%char <-> c = "="%char.
Proof.
  destruct c as [[] [] [] [] [] [] [] []]; split; intros H;
    solve [reflexivity | discriminate H].
Qed.

Lemma startswith_lower (s : string) :
  PyStr.startswith "==" (PyStr.lower s) = PyStr.startswith "==" s.
Proof.
  assert (Hone : forall c (x y : bool),
            (if ascii_dec "=" (PyStr.lower_ascii c) then x else y)
            = (if ascii_dec "=" c then x else y)).
  { intros c x y.
    destruct (ascii_dec "=" (PyStr.lower_ascii c)) as [H|H];
      destruct (ascii_dec "=" c) as [H'|H']; try reflexivity.
    - symmetry in H. apply (proj1 (lower_ascii_eq_sign c)) in H. congruence.
    - contradiction H. symmetry. apply (proj2 (lower_ascii_eq_sign c)).
      congruence. }
  destruct s as [|a [|b s]]; simpl; rewrite ?Hone; reflexivity.
Qed.

(** Lowering neither makes nor removes a ['==']. *)
Lemma contains_lower (s : string) :
  PyStr.contains "==" (PyStr.lower s) = PyStr.contains "==" s.
Proof.
  induction s as [|c s IH]; [reflexivity|].
  change (PyStr.lower (String c s))
    with (String (PyStr.lower_ascii c) (PyStr.lower s)).
  cbn [PyStr.contains]. rewrite IH. f_equal.
  apply (startswith_lower (String c s)).
Qed.

(** A name without ['='] is the head of its pin line. *)
Lemma split1_head_name (name post : string) :
  PyStr.contains "=" name = false ->
  PyStr.split1_head "==" (String.append name (String.append "==" post)) = name.
Proof.
  induction name as [|c name IH]; intros Hname; [reflexivity|].
  cbn [PyStr.contains PyStr.startswith] in Hname.
  apply orb_false_iff in Hname as [Hc Hname].
  rewrite append_cons. cbn [PyStr.split1_head PyStr.startswith].
  destruct (ascii_dec "=" c) as [Heq|Hne]; [discriminate Hc|].
  rewrite (IH Hname). reflexivity.
Qed.

(** Every line of a text is a piece of the text. *)
Lemma line_in_content (content line : string) :
  line ∈ PyStr.iter_lines content ->
  exists pre post, content = String.append pre (String.append line post).
Proof.
  assert (Hcat : forall ls : list string, line ∈ ls ->
            exists pre post,
              String.concat EmptyString ls
              = String.append pre (String.append line post)).
  { induction ls as [|l ls IH]; intros Hin; [inversion Hin|].
    rewrite concat_cons. apply elem_of_cons in Hin as [->|Hin].
    - exists EmptyString, (String.concat EmptyString ls). reflexivity.
    - destruct (IH Hin) as (pre & post & ->).
      exists (String.append l pre), post. symmetry. apply append_assoc. }
  intros Hin. apply Hcat in Hin. rewrite iter_lines_concat in Hin. exact Hin.
Qed.

Lemma no_pin_in_content (content : string) :
  PyStr.contains "==" content = false ->
  Forall (λ line, PyStr.contains "==" line = false) (PyStr.iter_lines content).
Proof.
  intros Hnone. apply Forall_forall. intros line Hin.
  destruct (PyStr.contains "==" line) eqn:Hline; [|reflexivity].
  apply contains_iff in Hline as (a & b & ->).
  apply line_in_content in Hin as (pre & post & Hcontent).
  assert (PyStr.contains "==" content = true) as Hyes; [|congruence].
  apply contains_iff. exists (String.append pre a), (String.append b post).
  rewrite Hcontent, !append_assoc. reflexivity.
Qed.

Lemma iter_lines_nonempty (c : ascii) (rest : string) :
  PyStr.iter_lines (String c rest) <> [].
Proof.
  cbn [PyStr.iter_lines]. destruct (ascii_dec c PyStr.newline); [discriminate|].
  destruct (PyStr.iter_lines rest); discriminate.
Qed.

(** After a line feed the lines of what follows are on their own. *)
Lemma iter_lines_app (content more : string) :
  PyStr.iter_lines (String.append (String.append content LF) more)
  = (PyStr.iter_lines (String.append content LF) ++ PyStr.iter_lines more)%list.
Proof.
  induction content as [|c content IH].
  - unfold LF. rewrite append_nil, append_cons, append_nil.
    cbn [PyStr.iter_lines].
    destruct (ascii_dec PyStr.newline PyStr.newline); [reflexivity|congruence].
  - rewrite !append_cons. cbn [PyStr.iter_lines].
    destruct (ascii_dec c PyStr.newline); [rewrite IH; reflexivity|].
    rewrite IH.
    destruct (PyStr.iter_lines (String.append content LF)) as [|l ls] eqn:Hl;
      [|reflexivity].
    exfalso. destruct content; [discriminate Hl|].
    rewrite append_cons in Hl. exact (iter_lines_nonempty _ _ Hl).
Qed.

Lemma parse_pins_app (lines more : list string) :
  parse_pins (lines ++ more) = parse_pins lines ∪ parse_pins more.
Proof.
  unfold parse_pins. rewrite filter_app, fmap_app. apply list_to_set_app_L.
Qed.

Lemma parse_pins_cons (line : string) (lines : list string) :
  parse_pins (line :: lines)
  = (if PyStr.contains "==" line then {[pin_name line]} else ∅)
      ∪ parse_pins lines.
Proof.
  unfold parse_pins. rewrite filter_cons.
  destruct (PyStr.contains "==" line) eqn:Hline.
  - rewrite decide_True by exact I. reflexivity.
  - rewrite decide_False by (intros []).
    symmetry. apply (left_id_L ∅ (∪)).
Qed.

(** X8. Only the text before the first ['=='] of a pin line counts: for
    a name without ['='], the line [name + '==' + anything] is a pin
    line for the lower-cased name, and replacing what follows the
    ['=='] (the version, hashes, a comment) by anything else leaves the
    pin set of the file as it was. *)
Theorem pin_ignores_version (name : string) :
  PyStr.contains "=" name = false ->
  (forall post,
     PyStr.contains "==" (String.append name (String.append "==" post)) = true /\
     pin_name (String.append name (String.append "==" post)) = PyStr.lower name) /\
  (forall post post' before after,
     parse_pins (before ++ String.append name (String.append "==" post) :: after)
     = parse_pins
         (before ++ String.append name (String.append "==" post') :: after)).
Proof.
  intros Hname.
  assert (Hline : forall post,
     PyStr.contains "==" (String.append name (String.append "==" post)) = true /\
     pin_name (String.append name (String.append "==" post)) = PyStr.lower name).
  { intros post. split.
    - apply contains_iff. exists name, post. reflexivity.
    - unfold pin_name. rewrite (split1_head_name _ _ Hname). reflexivity. }
  split; [exact Hline|].
  intros post post' before after.
  rewrite !parse_pins_app, !parse_pins_cons.
  destruct (Hline post) as [-> ->]. destruct (Hline post') as [-> ->].
  reflexivity.
Qed.

(** X9. The names of a pin set are in normal form: every name that
    [_read_packages] returns is lower-case and holds no ['==']; hence a
    requested name that itself holds ['=='] (a name given with its
    version) is pinned in no environment. *)
Theorem pin_names_normal (fs : filesystem) (outfile : string)
    (pkgs : gset string) :
  _read_packages fs outfile = Ok pkgs ->
  (forall name, name ∈ pkgs ->
     PyStr.lower name = name /\ PyStr.contains "==" name = false) /\
  (forall P, PyStr.contains "==" P = true -> pinned_in pkgs P = false).
Proof.
  intros Hread.
  assert (Hnames : forall name, name ∈ pkgs ->
            PyStr.lower name = name /\ PyStr.contains "==" name = false).
  { intros name Hin. unfold _read_packages in Hread.
    destruct (fs outfile) as [content|[]]; try discriminate Hread;
      injection Hread as <-; [|exfalso; exact (not_elem_of_empty _ Hin)].
    unfold parse_pins in Hin.
    apply elem_of_list_to_set, list_elem_of_fmap in Hin as (line & -> & _).
    unfold pin_name. split; [apply lower_idemp|].
    rewrite contains_lower. apply split1_head_clean. discriminate. }
  split; [exact Hnames|].
  intros P HP. unfold pinned_in. apply bool_decide_eq_false. intros Hin.
  apply Hnames in Hin as [_ Hin]. rewrite contains_lower in Hin. congruence.
Qed.

(** X10. A file without any ['=='] reads as a missing file: both give
    the empty pin set (the code's "act as if file is empty"). *)
Theorem file_without_pins_like_missing (fs_plain fs_missing : filesystem)
    (outfile content : string) :
  fs_plain outfile = Ok content ->
  PyStr.contains "==" content = false ->
  fs_missing outfile = Raise IOError ->
  _read_packages fs_plain outfile = Ok ∅ /\
  _read_packages fs_plain outfile = _read_packages fs_missing outfile.
Proof.
  intros Hplain Hnone Hmissing. unfold _read_packages.
  rewrite Hplain, Hmissing. unfold parse_pins.
  rewrite (filter_none _ (PyStr.iter_lines content)); [split; reflexivity|].
  eapply Forall_impl; [apply no_pin_in_content, Hnone|].
  intros line Hline Hc. apply Is_true_true in Hc. congruence.
Qed.

(** X11. Text appended to a file that ends with a line feed only adds
    pins: the pin set of the longer file is the pin set of the file
    united with the pin set of the appended text, so every package found
    before is found after. *)
Theorem appended_text_adds_pins (fs fs' : filesystem)
    (outfile content more : string) :
  fs outfile = Ok (String.append content LF) ->
  fs' outfile = Ok (String.append (String.append content LF) more) ->
  exists pkgs,
    _read_packages fs outfile = Ok pkgs /\
    _read_packages fs' outfile
      = Ok (pkgs ∪ parse_pins (PyStr.iter_lines more)) /\
    (forall P, pinned_in pkgs P = true ->
       pinned_in (pkgs ∪ parse_pins (PyStr.iter_lines more)) P = true).
Proof.
  intros Hfs Hfs'. unfold _read_packages. rewrite Hfs, Hfs'.
  eexists. split; [reflexivity|]. split.
  - rewrite iter_lines_app, parse_pins_app. reflexivity.
  - intros P. unfold pinned_in. rewrite !bool_decide_eq_true.
    apply elem_of_union_l.
Qed.

End PinLines.

(** ** The two upgrade features together *)

Section Together.

Import UpgradeSelected.

Variable compose : string -> string.

(** X6. [--upgrade] and [--upgrade-package] are never passed together:
    for every environment, either [UpgradeAll.pin_options] is empty, or
    [UpgradeSelected.pin_options] returns the empty list without
    reading a file. *)
Theorem upgrade_features_exclusive (fs : filesystem) (env_name : string)
    (upgrade_all : UpgradeAll.t) (self : t) :
  UpgradeAll.pin_options upgrade_all self = [] \/
  pin_options compose fs env_name self = (Ok [], self).
Proof.
  unfold UpgradeAll.pin_options, UpgradeAll.enabled, pin_options, active.
  destruct (package_names self) as [|p names].
  - right. reflexivity.
  - left. rewrite andb_false_r. reflexivity.
Qed.

(** X7. While [UpgradeAll] is enabled every environment is affected:
    [affected] returns true for each of them, reads no file and leaves
    the cache as it is. *)
Theorem enabled_implies_affected (upgrade_all : UpgradeAll.t) (self : t) :
  UpgradeAll.enabled upgrade_all self = true ->
  forall (fs : filesystem) (env_name : string),
    affected compose fs env_name self = (Ok true, self).
Proof.
  unfold UpgradeAll.enabled. intros H fs env_name.
  apply andb_true_iff in H as [_ H]. apply negb_true_iff in H.
  unfold affected. rewrite H. reflexivity.
Qed.

End Together.

(** ** Case of the letters in the output file *)

Section FileCase.

Import UpgradeSelected.

Lemma lower_ascii_newline (c : ascii) :
  PyStr.lower_ascii c = PyStr.newline <-> c = PyStr.newline.
Proof.
  destruct c as [[] [] [] [] [] [] [] []]; split; intros H;
    solve [reflexivity | discriminate H].
Qed.

(** Lowering a text lowers its lines. *)
Lemma iter_lines_lower (content : string) :
  PyStr.iter_lines (PyStr.lower content)
  = PyStr.lower <$> PyStr.iter_lines content.
Proof.
  induction content as [|c content IH]; [reflexivity|].
  change (PyStr.lower (String c content))
    with (String (PyStr.lower_ascii c) (PyStr.lower content)).
  cbn [PyStr.iter_lines]. rewrite IH.
  destruct (ascii_dec (PyStr.lower_ascii c) PyStr.newline) as [H|H];
    destruct (ascii_dec c PyStr.newline) as [H'|H'].
  - rewrite H, H'. reflexivity.
  - contradiction H'. apply (proj1 (lower_ascii_newline c)), H.
  - contradiction H. apply (proj2 (lower_ascii_newline c)), H'.
  - destruct (PyStr.iter_lines content); reflexivity.
Qed.

(** Lowering and splitting may be swapped. *)
Lemma split1_head_lower (s : string) :
  PyStr.split1_head "==" (PyStr.lower s)
  = PyStr.lower (PyStr.split1_head "==" s).
Proof.
  induction s as [|c s IH]; [reflexivity|].
  pose proof (startswith_lower (String c s)) as Hs.
  change (PyStr.lower (String c s))
    with (String (PyStr.lower_ascii c) (PyStr.lower s)) in *.
  cbn [PyStr.split1_head]. rewrite Hs.
  destruct (PyStr.startswith "==" (String c s)); [reflexivity|].
  rewrite IH. reflexivity.
Qed.

Lemma parse_pins_lower (lines : list string) :
  parse_pins (PyStr.lower <$> lines) = parse_pins lines.
Proof.
  induction lines as [|line lines IH]; [reflexivity|].
  rewrite fmap_cons, !parse_pins_cons, IH, contains_lower.
  unfold pin_name. rewrite split1_head_lower, lower_idemp. reflexivity.
Qed.

(** X12. The case of the letters in the output file plays no part:
    the file and the same file in lower case have the same pin set, and
    so give the same answers. *)
Theorem read_packages_ignores_case (fs fs' : filesystem)
    (outfile content : string) :
  fs outfile = Ok content ->
  fs' outfile = Ok (PyStr.lower content) ->
  _read_packages fs' outfile = _read_packages fs outfile.
Proof.
  intros Hfs Hfs'. unfold _read_packages. rewrite Hfs, Hfs'.
  rewrite iter_lines_lower, parse_pins_lower. reflexivity.
Qed.

End FileCase.

(** ** More runs on the small project *)

Section MoreRuns.

Import UpgradeSelected.

(** The file of [broken] can not be decoded: the call raises and stores
    nothing. *)
Lemma raise_only_from_unreadable_file_witness :
  fst (ask Demo.compose Demo.fs (Affected "broken") Demo.selected)
    = Raise OtherError /\
  snd (ask Demo.compose Demo.fs (Affected "broken") Demo.selected)
    = Demo.selected.
Proof.
  destruct (raise_only_from_unreadable_file Demo.compose Demo.fs
              (Affected "broken") Demo.selected OtherError) as [Hiff Hsame].
  assert (fst (ask Demo.compose Demo.fs (Affected "broken") Demo.selected)
          = Raise OtherError) as Hraise.
  { apply Hiff. split; [reflexivity|]. split; [reflexivity|].
    split; [reflexivity | discriminate]. }
  split; [exact Hraise | exact (Hsame Hraise)].
Defined.

(** [docs] is asked for before its first compilation and again after:
    the answer stays "not pinned"; after [reset] the new file is read. *)
Lemma missing_file_is_memoized_witness :
  Demo.fs (Demo.compose "docs") = Raise IOError /\
  fst (has_package Demo.compose fs_with_docs "docs" "foo"
         (snd (ask Demo.compose Demo.fs (HasPackage "docs" "foo") Demo.selected)))
    = Ok false /\
  fst (has_package Demo.compose fs_with_docs "docs" "foo"
         (reset (snd (ask Demo.compose Demo.fs (HasPackage "docs" "foo")
                        Demo.selected))))
    = Ok true.
Proof.
  split; [reflexivity|]. split; [|reflexivity].
  destruct (missing_file_is_memoized Demo.compose Demo.fs
              (HasPackage "docs" "foo") Demo.selected eq_refl eq_refl eq_refl
              fs_with_docs) as [Hhas _].
  apply (Hhas "foo").
Defined.

(** Two calls, one after the other and the other way round. *)
Lemma run_order_irrelevant_witness :
  run Demo.compose Demo.fs [HasPackage "base" "foo"; Affected "test"]
    Demo.selected
  = run Demo.compose Demo.fs [Affected "test"; HasPackage "base" "foo"]
      Demo.selected.
Proof.
  apply (run_order_irrelevant Demo.compose Demo.fs). apply perm_swap.
Defined.

(** [--upgrade] without [-P], on an environment whose file is broken. *)
Lemma enabled_implies_affected_witness :
  UpgradeAll.enabled (UpgradeAll.mk true) Demo.unset = true /\
  affected Demo.compose Demo.fs "broken" Demo.unset = (Ok true, Demo.unset).
Proof.
  split; [reflexivity|].
  apply (enabled_implies_affected Demo.compose (UpgradeAll.mk true) Demo.unset
           eq_refl).
Defined.

(** [six==1.16.0  # via foo] binds [six]. *)
Lemma pin_ignores_version_witness :
  PyStr.contains "=" "Six" = false /\
  pin_name "Six==1.16.0  # via foo==1.0" = "six" /\
  parse_pins ["Foo==1.0"; "Six==1.16.0"] = parse_pins ["Foo==1.0"; "Six==2.0"].
Proof.
  split; [reflexivity|].
  destruct (pin_ignores_version "Six" eq_refl) as [Hline Hset].
  split.
  - apply (Hline "1.16.0  # via foo==1.0").
  - apply (Hset "1.16.0" "2.0" ["Foo==1.0"] []).
Defined.

(** [-P foo==1.0] finds nothing in [base.txt]. *)
Lemma pin_names_normal_witness :
  _read_packages Demo.fs "requirements/base.txt" = Ok Demo.base_pins /\
  pinned_in Demo.base_pins "foo==1.0" = false /\
  pinned_in Demo.base_pins "foo" = true.
Proof.
  split; [reflexivity|]. split; [|reflexivity].
  destruct (pin_names_normal Demo.fs "requirements/base.txt" Demo.base_pins
              eq_refl) as [_ Hversion].
  apply Hversion. reflexivity.
Defined.

(** A file of comments against no file. *)
Lemma file_without_pins_like_missing_witness :
  _read_packages (fun _ => Ok (String.append "# nothing = pinned" LF)) "a.txt"
  = _read_packages (fun _ => Raise IOError) "a.txt".
Proof.
  apply (file_without_pins_like_missing
           (fun _ => Ok (String.append "# nothing = pinned" LF))
           (fun _ => Raise IOError) "a.txt"
           (String.append "# nothing = pinned" LF));
    reflexivity.
Defined.

(** [bar==2.0] appended to a file that pins [Foo]. *)
Lemma appended_text_adds_pins_witness :
  exists pkgs,
    _read_packages (fun _ => Ok (String.append "Foo==1.0" LF)) "a.txt" = Ok pkgs /\
    _read_packages
      (fun _ => Ok (String.append (String.append "Foo==1.0" LF) "bar==2.0"))
      "a.txt"
      = Ok (pkgs ∪ parse_pins (PyStr.iter_lines "bar==2.0")) /\
    pinned_in (pkgs ∪ parse_pins (PyStr.iter_lines "bar==2.0")) "FOO" = true.
Proof.
  destruct (appended_text_adds_pins
              (fun _ => Ok (String.append "Foo==1.0" LF))
              (fun _ => Ok (String.append (String.append "Foo==1.0" LF) "bar==2.0"))
              "a.txt" "Foo==1.0" "bar==2.0" eq_refl eq_refl)
    as (pkgs & Hread & Hread' & Hkept).
  exists pkgs. split; [exact Hread|]. split; [exact Hread'|].
  apply Hkept. injection Hread as <-. reflexivity.
Defined.

(** [base.txt] and [base.txt] in lower case. *)
Lemma read_packages_ignores_case_witness :
  _read_packages (fun _ => Ok (PyStr.lower Demo.base_txt)) "requirements/base.txt"
  = _read_packages Demo.fs "requirements/base.txt".
Proof.
  apply (read_packages_ignores_case Demo.fs
           (fun _ => Ok (PyStr.lower Demo.base_txt))
           "requirements/base.txt" Demo.base_txt);
    reflexivity.
Defined.

End MoreRuns.
